(** * LSIF server and worker: upload endpoint, convert job, startup migration

    A shallow embedding of [lsif/src/server.ts] and [lsif/src/worker.ts].
    JavaScript values that the code inspects dynamically (query
    parameters, thrown errors) are modelled by a small value type with
    JavaScript truthiness; the file system, the cross-repository database
    and the job queue are fields of one explicit world that every
    operation threads; a thrown exception is a completion of its own, and
    so is the promise that never settles. *)

From Stdlib Require Import ZArith Ascii String List Bool Lia DecimalString DecimalNat.
From stdpp Require Import gmap strings list fin_maps.

Import ListNotations.
Local Open Scope Z_scope.
Set Warnings "-register-all".

(** ** JavaScript values *)

Inductive JsVal : Type :=
| JsUndefined
| JsNull
| JsBool (b : bool)
| JsNum (n : Z)
| JsStr (s : string)
| JsObj (fields : list (string * JsVal)).

(** [ToBoolean]: undefined, null, false, 0 and the empty string are falsy. *)
Definition truthy (v : JsVal) : bool :=
  match v with
  | JsUndefined | JsNull => false
  | JsBool b => b
  | JsNum n => negb (n =? 0)
  | JsStr s => negb (String.eqb s "")
  | JsObj _ => true
  end.

(** [a || b] and [a && b] return one of their operands. *)
Definition js_or (a b : JsVal) : JsVal := if truthy a then a else b.
Definition js_and (a b : JsVal) : JsVal := if truthy a then b else a.

Fixpoint assoc (k : string) (fields : list (string * JsVal)) : JsVal :=
  match fields with
  | [] => JsUndefined
  | (k', v) :: rest => if String.eqb k k' then v else assoc k rest
  end.

(** Property read [v.k]; a missing property reads as undefined. *)
Definition get (v : JsVal) (k : string) : JsVal :=
  match v with
  | JsObj fields => assoc k fields
  | _ => JsUndefined
  end.

Definition is_string (v : JsVal) : bool :=
  match v with JsStr _ => true | _ => false end.

(** [String(v)]. *)
Definition js_to_string (v : JsVal) : string :=
  match v with
  | JsStr s => s
  | JsUndefined => "undefined"
  | JsNull => "null"
  | JsBool true => "true"
  | JsBool false => "false"
  | JsNum n => NilEmpty.string_of_int (Z.to_int n)
  | JsObj _ => "[object Object]"
  end.

(** A numeral in plain decimal notation. *)
Definition digit_value (c : ascii) : option Z :=
  let n := nat_of_ascii c in
  if ((48 <=? n)%nat && (n <=? 57)%nat) then Some (Z.of_nat n - 48) else None.

Fixpoint parse_digits (s : string) (acc : Z) : option Z :=
  match s with
  | EmptyString => Some acc
  | String c rest =>
      match digit_value c with
      | Some d => parse_digits rest (10 * acc + d)
      | None => None
      end
  end.

Definition parse_decimal (s : string) : option Z :=
  match s with
  | EmptyString => None
  | _ => parse_digits s 0
  end.

(** [ToInt32], as in [x | 0]. *)
Definition to_int32 (n : Z) : Z := (n + 2 ^ 31) mod 2 ^ 32 - 2 ^ 31.

(** [v | 0]: [ToNumber], then [ToInt32]; what is not a number counts as 0.
    Of the strings, the numerals in plain decimal notation are read; the
    other notations of a number in a string (sign, fraction, exponent,
    hexadecimal, padding) are not modelled and count as not a number. *)
Definition js_int32 (v : JsVal) : Z :=
  match v with
  | JsNum n => to_int32 n
  | JsBool true => 1
  | JsStr s => match parse_decimal s with Some n => to_int32 n | None => 0 end
  | _ => 0
  end.

(** What the code throws and what the environment rejects with is always
    an [Error] object: the list of its properties. *)
Definition JsError : Type := list (string * JsVal).

(** [Object.assign(e, {k: x})]: the new property shadows an old one. *)
Definition assign (e : JsError) (k : string) (x : JsVal) : JsError :=
  (k, x) :: e.

(** [Object.assign(new Error(message), { status })]. *)
Definition mkError (message : string) (status : Z) : JsError :=
  assign [("message", JsStr message)] "status" (JsNum status).

(** ** The world *)

Definition Bytes := list Byte.byte.

Record LsifDump := mkDump {
  dump_id : nat;
  dump_repository : string;
  dump_commit : string;
  dump_root : string;
  visible_at_tip : bool
}.

Record Package := mkPackage {
  pkg_scheme : string;
  pkg_name : string;
  pkg_version : string
}.

Record PackageReference := mkPackageReference {
  ref_package : Package;
  ref_identifiers : list string
}.

Record Job := mkJob { job_name : string; job_args : JsVal }.

Record RepeatableJob := mkRepeatable {
  rep_name : string;
  rep_args : JsVal;
  rep_every : Z
}.

Record LogEntry := mkLog { log_level : string; log_message : string; log_meta : JsVal }.

Record Response := mkResponse {
  statusCode : JsVal;
  headersSent : bool;
  sent : option JsVal
}.

Definition freshResponse : Response :=
  mkResponse (JsNum 200) false None.

Inductive FsEvent :=
| EvRename (oldPath newPath : string)
| EvUnlink (path : string)
| EvWrite (path : string).

Record World := mkWorld {
  files : gmap string Bytes;
  oplog : list FsEvent;
  lsif_dumps : list LsifDump;
  lsif_packages : list (nat * Package);
  lsif_references : list (nat * PackageReference);
  lsif_commits : list (string * string);
  next_dump_id : nat;
  jobs : list Job;
  repeatable : list RepeatableJob;
  logs : list LogEntry;
  response : Response;
  uuid_gen : nat -> string;
  uuid_used : nat;
  faults : list (option JsError)
}.

Definition set_disk (f : gmap string Bytes) (ev : list FsEvent) (w : World) : World :=
  mkWorld f (oplog w ++ ev) (lsif_dumps w) (lsif_packages w) (lsif_references w)
    (lsif_commits w) (next_dump_id w) (jobs w) (repeatable w) (logs w)
    (response w) (uuid_gen w) (uuid_used w) (faults w).

Definition set_xrepo (d : list LsifDump) (p : list (nat * Package))
    (r : list (nat * PackageReference)) (n : nat) (w : World) : World :=
  mkWorld (files w) (oplog w) d p r (lsif_commits w) n (jobs w) (repeatable w)
    (logs w) (response w) (uuid_gen w) (uuid_used w) (faults w).

Definition set_commits (c : list (string * string)) (w : World) : World :=
  mkWorld (files w) (oplog w) (lsif_dumps w) (lsif_packages w) (lsif_references w)
    c (next_dump_id w) (jobs w) (repeatable w) (logs w) (response w)
    (uuid_gen w) (uuid_used w) (faults w).

Definition set_jobs (j : list Job) (w : World) : World :=
  mkWorld (files w) (oplog w) (lsif_dumps w) (lsif_packages w) (lsif_references w)
    (lsif_commits w) (next_dump_id w) j (repeatable w) (logs w) (response w)
    (uuid_gen w) (uuid_used w) (faults w).

Definition set_repeatable (r : list RepeatableJob) (w : World) : World :=
  mkWorld (files w) (oplog w) (lsif_dumps w) (lsif_packages w) (lsif_references w)
    (lsif_commits w) (next_dump_id w) (jobs w) r (logs w) (response w)
    (uuid_gen w) (uuid_used w) (faults w).

Definition set_logs (l : list LogEntry) (w : World) : World :=
  mkWorld (files w) (oplog w) (lsif_dumps w) (lsif_packages w) (lsif_references w)
    (lsif_commits w) (next_dump_id w) (jobs w) (repeatable w) l (response w)
    (uuid_gen w) (uuid_used w) (faults w).

Definition set_response (r : Response) (w : World) : World :=
  mkWorld (files w) (oplog w) (lsif_dumps w) (lsif_packages w) (lsif_references w)
    (lsif_commits w) (next_dump_id w) (jobs w) (repeatable w) (logs w) r
    (uuid_gen w) (uuid_used w) (faults w).

Definition set_uuid_used (n : nat) (w : World) : World :=
  mkWorld (files w) (oplog w) (lsif_dumps w) (lsif_packages w) (lsif_references w)
    (lsif_commits w) (next_dump_id w) (jobs w) (repeatable w) (logs w) (response w)
    (uuid_gen w) n (faults w).

Definition set_faults (f : list (option JsError)) (w : World) : World :=
  mkWorld (files w) (oplog w) (lsif_dumps w) (lsif_packages w) (lsif_references w)
    (lsif_commits w) (next_dump_id w) (jobs w) (repeatable w) (logs w) (response w)
    (uuid_gen w) (uuid_used w) f.

(** ** Computations that may throw, or never settle

    An [await] ends in one of three ways: the promise fulfils, it rejects,
    or it never settles. In the last case what waits for it never
    resumes: nothing after the [await] runs and no [catch] sees it. *)

Inductive Completion (A : Type) : Type :=
| Return (a : A)
| Throw (e : JsError)
| Pending.
Arguments Return {A} a.
Arguments Throw {A} e.
Arguments Pending {A}.

Definition M (A : Type) : Type := World -> Completion A * World.

Definition ret {A} (a : A) : M A := fun w => (Return a, w).

Definition throw {A} (e : JsError) : M A := fun w => (Throw e, w).

Definition pending {A} : M A := fun w => (Pending, w).

Definition bind {A B} (c : M A) (k : A -> M B) : M B :=
  fun w =>
    match c w with
    | (Return a, w') => k a w'
    | (Throw e, w') => (Throw e, w')
    | (Pending, w') => (Pending, w')
    end.

(** [try { c } catch (e) { h e }]. *)
Definition try_catch {A} (c : M A) (h : JsError -> M A) : M A :=
  fun w =>
    match c w with
    | (Return a, w') => (Return a, w')
    | (Throw e, w') => h e w'
    | (Pending, w') => (Pending, w')
    end.

Declare Scope js_scope.
Delimit Scope js_scope with js.
Notation "x <- c ;; k" := (bind c (fun x => k))
  (at level 100, c at next level, right associativity) : js_scope.
Notation "c ;; k" := (bind c (fun _ => k))
  (at level 100, right associativity) : js_scope.
Local Open Scope js_scope.

Definition failed {A} (r : Completion A) : bool :=
  match r with Throw _ => true | _ => false end.

(** ** The environment's failures

    Every operation that leaves the process (disk, database, queue,
    network) first consults the script of pending outcomes: [Some e] makes
    it reject with [e] before it has any effect, [None] or an exhausted
    script lets it proceed. *)
Definition io_point : M unit :=
  fun w =>
    match faults w with
    | [] => (Return tt, w)
    | None :: rest => (Return tt, set_faults rest w)
    | Some e :: rest => (Throw e, set_faults rest w)
    end.

Definition fault_free (w : World) : Prop := faults w = [].

(** ** mz/fs *)

Definition ENOENT (path : string) : JsError :=
  [("message", JsStr ("ENOENT: no such file or directory, " +:+ path));
   ("code", JsStr "ENOENT")].

Definition fs_exists (path : string) : M bool :=
  fun w => (Return (bool_decide (is_Some (files w !! path))), w).

Definition fs_rename (oldPath newPath : string) : M unit :=
  io_point ;;
  fun w =>
    match files w !! oldPath with
    | Some data =>
        (Return tt,
         set_disk (<[newPath := data]> (delete oldPath (files w)))
                  [EvRename oldPath newPath] w)
    | None => (Throw (ENOENT oldPath), w)
    end.

Definition fs_unlink (path : string) : M unit :=
  io_point ;;
  fun w =>
    match files w !! path with
    | Some _ => (Return tt, set_disk (delete path (files w)) [EvUnlink path] w)
    | None => (Throw (ENOENT path), w)
    end.

(** The file is created, or truncated, with nothing in it. *)
Definition fs_create (path : string) : M unit :=
  fun w => (Return tt, set_disk (<[path := []]> (files w)) [EvWrite path] w).

(** [fs.open(path, 'w')]: an open that fails leaves no file. *)
Definition fs_open (path : string) : M unit :=
  io_point ;;
  fs_create path.

(** [fs.close(fd)]: the file stays as it is, also when the close fails. *)
Definition fs_close : M unit := io_point.

(** [fs.createWriteStream(path)] returns the stream at once. Its file is
    opened behind it, and a failed open is an error of the stream: both
    show where the stream is used, in [pipeline]. The stream is known by
    its path. *)
Definition fs_createWriteStream (path : string) : M string := ret path.

(** [fs.close(await fs.open(path, 'w'))]: two operations, each of which
    can fail; when the close fails the file is there already. *)
Definition fs_touch (path : string) : M unit :=
  fs_open path ;;
  fs_close.

(** [path.join], for segments that need no normalising: the segments are
    joined by [/] as they are. Doubled separators and [.] or [..] segments,
    which [path.join] would resolve, are kept. *)
Fixpoint path_join (parts : list string) : string :=
  match parts with
  | [] => "."
  | [p] => p
  | p :: rest => p +:+ "/" +:+ path_join rest
  end.

Definition uuid_v4 : M string :=
  fun w => (Return (uuid_gen w (uuid_used w)), set_uuid_used (S (uuid_used w)) w).

(** ** winston logger *)

Definition logger_log (level message : string) (meta : JsVal) : M unit :=
  fun w => (Return tt, set_logs (logs w ++ [mkLog level message meta]) w).

(** ** express response *)

Definition res_status (code : JsVal) : M unit :=
  fun w =>
    (Return tt,
     set_response (mkResponse code (headersSent (response w)) (sent (response w))) w).

(** [writeHead] of node's http: [statusCode |= 0], and a code below 100
    or above 999 is refused. *)
Definition valid_status_code (code : JsVal) : bool :=
  (100 <=? js_int32 code) && (js_int32 code <=? 999).

Arguments to_int32 : simpl never.
Arguments valid_status_code : simpl never.

Definition ERR_HTTP_INVALID_STATUS_CODE (code : JsVal) : JsError :=
  [("message", JsStr ("Invalid status code: " +:+ js_to_string code));
   ("code", JsStr "ERR_HTTP_INVALID_STATUS_CODE")].

(** [res.send(body)] writes the head with the status code that was set,
    then the body: with a code that [writeHead] refuses it throws and
    nothing goes out. *)
Definition res_send (body : JsVal) : M unit :=
  fun w =>
    if valid_status_code (statusCode (response w))
    then (Return tt,
          set_response (mkResponse (statusCode (response w)) true (Some body)) w)
    else (Throw (ERR_HTTP_INVALID_STATUS_CODE (statusCode (response w))), w).

Definition res_json (body : JsVal) : M unit := res_send body.

(** ** server.ts: errorHandler *)

Definition errorHandler (error : JsVal) : M unit :=
  (if negb (truthy error) || negb (truthy (get error "status"))
   then logger_log "error" "uncaught exception" (JsObj [("error", error)])
   else ret tt) ;;
  fun w =>
    if negb (headersSent (response w))
    then (res_status (js_or (js_and error (get error "status")) (JsNum 500)) ;;
          res_send (JsObj [("message",
                            js_or (js_and error (get error "message"))
                                  (JsStr "Unknown error"))])) w
    else (Return tt, w).

(** ** server.ts: parameter checks *)

Definition checkRepository (repository : JsVal) : M unit :=
  if negb (is_string repository)
  then throw (mkError
                "Must specify the repository (usually of the form github.com/user/repo)"
                400)
  else ret tt.

(** One character of the class [[0-9a-f]]. *)
Definition lower_hex (c : ascii) : bool :=
  let n := nat_of_ascii c in
  ((48 <=? n)%nat && (n <=? 57)%nat) || ((97 <=? n)%nat && (n <=? 102)%nat).

(** [/^[0-9a-f]+$/.test(s)]. *)
Definition all_lower_hex (s : string) : bool :=
  negb (String.eqb s "") && forallb lower_hex (list_ascii_of_string s).

Definition checkCommit (commit : JsVal) : M unit :=
  match commit with
  | JsStr s =>
      if negb (String.length s =? 40)%nat || negb (all_lower_hex s)
      then throw (mkError ("Must specify the commit as a 40 character hash " +:+ s) 400)
      else ret tt
  | _ =>
      throw (mkError ("Must specify the commit as a 40 character hash "
                      +:+ js_to_string commit) 400)
  end.

Definition checkFile (file : JsVal) : M unit :=
  if negb (is_string file)
  then throw (mkError ("Must specify a file " +:+ js_to_string file) 400)
  else ret tt.

Definition js_str_eqb (v : JsVal) (s : string) : bool :=
  match v with JsStr t => String.eqb t s | _ => false end.

(** [supportedMethods.includes(method)] and the 422 it guards. *)
Definition checkMethod (method : JsVal) (supportedMethods : list string) : M unit :=
  if negb (existsb (js_str_eqb method) supportedMethods)
  then throw (mkError ("Method must be one of "
                       +:+ String.concat ", " supportedMethods) 422)
  else ret tt.

(** ** Requests *)

Record Request := mkRequest {
  query : JsVal;       (* req.query, as the query-string parser leaves it *)
  body : Bytes;        (* the raw request stream *)
  json : JsVal         (* req.body after bodyParser.json *)
}.

(** ** Code of the repository that the handlers call and that is not part
       of the sources at hand *)

Record Externals := mkExternals {
  Element : Type;
  (* input.ts *)
  readGzippedJsonElements : Bytes -> Completion (list Element);
  validateLsifElements : list Element -> Completion (list Element);
  stringifyJsonLines : list Element -> Bytes;
  (* zlib *)
  createGzip : Bytes -> Bytes;
  (* importer.ts: the database file, the packages and the references of an input *)
  importLsif : Bytes -> Completion (Bytes * list Package * list PackageReference);
  (* backend.ts *)
  backend_exists : JsVal -> JsVal -> JsVal -> M JsVal;
  backend_query : JsVal -> JsVal -> JsVal -> JsVal -> JsVal -> M JsVal
}.

Definition string_of_nat (n : nat) : string :=
  NilEmpty.string_of_uint (Nat.to_uint n).

(** Modelled from the spec: util.ts is not among the sources. The final
    name of a dump under the storage root, [<dump-id>.lsif.db]; the
    repository and the commit are no longer part of it. *)
Definition dbFilename (storageRoot : string) (id : nat) (repository commit : string)
    : string :=
  path_join [storageRoot; string_of_nat id +:+ ".lsif.db"].

(** Modelled from the spec: util.ts is not among the sources. The name of
    a dump before the migration, [<repo>@<commit>.lsif.db]. *)
Definition dbFilenameOld (storageRoot : string) (repository commit : string) : string :=
  path_join [storageRoot; repository +:+ "@" +:+ commit +:+ ".lsif.db"].

(** The body of the 200 answer of /upload; it ends in a newline. *)
Definition uploadSuccessful : JsVal :=
  JsStr ("Upload successful, queued for processing." +:+ String "010" "").

Section Service.

Context (env : gmap string string).   (* process.env *)
Context (X : Externals).

(** Modelled from the spec: util.ts is not among the sources. [readEnvInt]
    reads an integer setting from the environment and falls back to the
    default when the variable is unset or is not a decimal number. *)
Definition readEnvInt (key : string) (defaultValue : Z) : Z :=
  match env !! key with
  | Some s => match parse_decimal s with Some n => n | None => defaultValue end
  | None => defaultValue
  end.

(** [process.env.LSIF_STORAGE_ROOT || 'lsif-storage']. *)
Definition STORAGE_ROOT : string :=
  match env !! "LSIF_STORAGE_ROOT" with
  | Some s => if String.eqb s "" then "lsif-storage" else s
  | None => "lsif-storage"
  end.

Definition HEADS_JOB_SCHEDULE_INTERVAL : Z :=
  readEnvInt "HEADS_JOB_SCHEDULE_INTERVAL" 30.

(** *** queue.ts *)

(** Modelled from the spec: queue.ts is not among the sources. [enqueue]
    appends a named job with its arguments to the durable queue. *)
Definition enqueue (name : string) (args : JsVal) : M unit :=
  io_point ;;
  fun w => (Return tt, set_jobs (jobs w ++ [mkJob name args]) w).

(** bull: [queue.removeRepeatable], for every repeatable job of the name. *)
Definition removeRepeatable (name : string) : M unit :=
  io_point ;;
  fun w =>
    (Return tt,
     set_repeatable
       (List.filter (fun j => negb (String.eqb (rep_name j) name)) (repeatable w)) w).

(** bull: [queue.add(name, { args }, { repeat: { every } })]. *)
Definition addRepeatable (name : string) (args : JsVal) (every : Z) : M unit :=
  io_point ;;
  fun w => (Return tt, set_repeatable (repeatable w ++ [mkRepeatable name args every]) w).

(** Modelled from the spec: queue.ts is not among the sources. The job of
    the given name is a scheduled singleton: whatever is scheduled under
    that name is removed, then the job is scheduled once with the interval. *)
Definition ensureOnlyRepeatableJob (name : string) (args : JsVal) (interval : Z)
    : M unit :=
  removeRepeatable name ;;
  addRepeatable name args interval.

(** *** server.ts: ensureFilenamesAreIDs *)

(** [db.getRepository(LsifDump).find()]. *)
Definition find_dumps : M (list LsifDump) :=
  io_point ;;
  fun w => (Return (lsif_dumps w), w).

Fixpoint for_each {A} (l : list A) (f : A -> M unit) : M unit :=
  match l with
  | [] => ret tt
  | x :: rest => f x ;; for_each rest f
  end.

Definition doneFile : string := path_join [STORAGE_ROOT; "id-based-filenames"].

Definition oldFile (dump : LsifDump) : string :=
  dbFilenameOld STORAGE_ROOT (dump_repository dump) (dump_commit dump).

Definition newFile (dump : LsifDump) : string :=
  dbFilename STORAGE_ROOT (dump_id dump) (dump_repository dump) (dump_commit dump).

Definition migrate_dump (dump : LsifDump) : M unit :=
  present <- fs_exists (oldFile dump) ;;
  if negb present then ret tt   (* continue *)
  else fs_rename (oldFile dump) (newFile dump).

Definition ensureFilenamesAreIDs : M unit :=
  migrated <- fs_exists doneFile ;;
  if migrated then ret tt   (* Already migrated. *)
  else
    (dumps <- find_dumps ;;
     for_each dumps migrate_dump ;;
     fs_touch doneFile).

(** *** server.ts: main

    The two steps of the start-up that change durable state, in the order
    of the source; directory creation, tracing, metrics and the express
    wiring are left out. *)
Definition main : M unit :=
  ensureOnlyRepeatableJob "update-tips" (JsObj []) HEADS_JOB_SCHEDULE_INTERVAL ;;
  ensureFilenamesAreIDs.

(** *** server.ts: POST /upload *)

(** A readable stream, by how it ends: with all its data, with an error,
    or not at all.

    [Readable.from(stringifyJsonLines(validateLsifElements(
    readGzippedJsonElements(req))))]: the lines of the elements of the
    body once they have all parsed and validated, or the error with which
    the chain of generators fails. *)
Definition validated_lines (req : Request) : Completion Bytes :=
  match readGzippedJsonElements X (body req) with
  | Return elements =>
      match validateLsifElements X elements with
      | Return valid => Return (stringifyJsonLines X valid)
      | Throw e => Throw e
      | Pending => Pending
      end
  | Throw e => Throw e
  | Pending => Pending
  end.

(** [readable.pipe(transform)], the stream it returns. [pipe] hands on the
    data and the end of the readable, not its error: when the readable
    fails, the stream that [pipe] returns neither ends nor fails. *)
Definition pipe (readable : Completion Bytes) (transform : Bytes -> Bytes)
    : Completion Bytes :=
  match readable with
  | Return data => Return (transform data)
  | _ => Pending
  end.

(** The readable side of the pipeline: the request itself, or the
    validating chain piped into gzip. *)
Definition upload_source (skipValidation : bool) (req : Request) : Completion Bytes :=
  if skipValidation then Return (body req)
  else pipe (validated_lines req) (createGzip X).

(** [pipeline(source, output)], promisified, [output] being the write
    stream of [filename]. The stream opens its file; when the open fails
    the pipeline rejects and there is no file. The data of the source is
    then written and the stream ended; an error of the source or of the
    write rejects the pipeline (what had been written by then is not
    modelled: the file is left as it was opened). With a source that
    neither ends nor fails the pipeline never settles. *)
Definition pipeline (source : Completion Bytes) (filename : string) : M unit :=
  fs_open filename ;;
  match source with
  | Return data =>
      io_point ;;
      fun w =>
        (Return tt, set_disk (<[filename := data]> (files w)) [EvWrite filename] w)
  | Throw e => throw e
  | Pending => pending
  end.

Definition convert_args (repository commit root : JsVal) (filename : string) : JsVal :=
  JsObj [("repository", repository); ("commit", commit);
         ("root", js_or root (JsStr "")); ("filename", JsStr filename)].

Definition uploadHandler (req : Request) : M unit :=
  let repository := get (query req) "repository" in
  let commit := get (query req) "commit" in
  let root := get (query req) "root" in
  let skipValidation := js_str_eqb (get (query req) "skipValidation") "true" in
  checkRepository repository ;;
  checkCommit commit ;;
  u <- uuid_v4 ;;
  let filename := path_join [STORAGE_ROOT; "uploads"; u] in
  output <- fs_createWriteStream filename ;;
  try_catch (pipeline (upload_source skipValidation req) output)
            (fun e => throw (assign e "status" (JsNum 422))) ;;
  logger_log "debug" "enqueueing convert job"
             (JsObj [("repository", repository); ("commit", commit); ("root", root)]) ;;
  enqueue "convert" (convert_args repository commit root filename) ;;
  res_send uploadSuccessful.

(** *** server.ts: POST /exists and POST /request *)

Definition existsHandler (req : Request) : M unit :=
  let repository := get (query req) "repository" in
  let commit := get (query req) "commit" in
  let file := get (query req) "file" in
  checkRepository repository ;;
  checkCommit commit ;;
  checkFile file ;;
  r <- backend_exists X repository commit file ;;
  res_json r.

Definition requestHandler (req : Request) : M unit :=
  let repository := get (query req) "repository" in
  let commit := get (query req) "commit" in
  let path := get (json req) "path" in
  let position := get (json req) "position" in
  let method := get (json req) "method" in
  checkRepository repository ;;
  checkCommit commit ;;
  checkMethod method ["definitions"; "references"; "hover"] ;;
  r <- backend_query X method repository commit path position ;;
  res_json r.

(** [wrap(handler)] followed by the error handler that [main] registers
    last: a handler that throws hands its error to [errorHandler]. When
    the error handler throws in its turn the request is left to the final
    handler of express, which is not part of this model: [serve] then ends
    in that [Throw]. *)
Definition serve (handler : Request -> M unit) (req : Request) : M unit :=
  fun w =>
    try_catch (handler req) (fun e => errorHandler (JsObj e))
              (set_response freshResponse w).

(** *** worker.ts *)

(** Modelled from the spec: importer.ts is not among the sources. The
    importer creates the database at the temp path, reads the upload and
    fills the database; a failure leaves the temp file behind. *)
Definition convertLsif (filename tempFile : string)
    : M (list Package * list PackageReference) :=
  fs_create tempFile ;;
  io_point ;;
  fun w =>
    match files w !! filename with
    | None => (Throw (ENOENT filename), w)
    | Some input =>
        match importLsif X input with
        | Throw e => (Throw e, w)
        | Pending => (Pending, w)
        | Return (db, packages, references) =>
            (Return (packages, references),
             set_disk (<[tempFile := db]> (files w)) [EvWrite tempFile] w)
        end
    end.

Definition same_key (repository commit root : string) (d : LsifDump) : bool :=
  String.eqb (dump_repository d) repository
  && String.eqb (dump_commit d) commit
  && String.eqb (dump_root d) root.

Definition replaced (old : list LsifDump) (id : nat) : bool :=
  existsb (fun d => Nat.eqb (dump_id d) id) old.

(** Modelled from the spec: xrepo.ts is not among the sources. One
    transaction replaces the dump row of [(repository, commit, root)] by a
    row with the next identifier, drops the package and reference rows of
    the row it replaces, inserts the new ones and returns the new dump; a
    failed transaction changes nothing. *)
Definition addPackagesAndReferences (repository commit root : string)
    (packages : list Package) (references : list PackageReference) : M LsifDump :=
  io_point ;;
  fun w =>
    let old := List.filter (same_key repository commit root) (lsif_dumps w) in
    let dump := mkDump (next_dump_id w) repository commit root false in
    (Return dump,
     set_xrepo
       (List.filter (fun d => negb (same_key repository commit root d)) (lsif_dumps w)
        ++ [dump])
       (List.filter (fun r => negb (replaced old (fst r))) (lsif_packages w)
        ++ map (fun p => (dump_id dump, p)) packages)
       (List.filter (fun r => negb (replaced old (fst r))) (lsif_references w)
        ++ map (fun r => (dump_id dump, r)) references)
       (S (next_dump_id w)) w).

(** Modelled from the spec: commits.ts is not among the sources. The
    parentage of the commit is asked of the repository host and recorded. *)
Definition discoverAndUpdateCommit (repository commit : string) : M unit :=
  io_point ;;
  fun w => (Return tt, set_commits (lsif_commits w ++ [(repository, commit)]) w).

Definition tempFileOf (u : string) : string := path_join [STORAGE_ROOT; "tmp"; u].

(** The body of the [try] block of the convert job. *)
Definition convert_steps (repository commit root filename tempFile : string) : M unit :=
  pr <- convertLsif filename tempFile ;;
  dump <- addPackagesAndReferences repository commit root (fst pr) (snd pr) ;;
  fs_rename tempFile (dbFilename STORAGE_ROOT (dump_id dump) repository commit).

(** The [catch] block: don't leave busted artifacts. *)
Definition convert_cleanup (tempFile : string) (e : JsError) : M unit :=
  fs_unlink tempFile ;;
  throw e.

Definition createConvertJobProcessor (repository commit root filename : string)
    : M unit :=
  u <- uuid_v4 ;;
  let tempFile := tempFileOf u in
  try_catch (convert_steps repository commit root filename tempFile)
            (convert_cleanup tempFile) ;;
  discoverAndUpdateCommit repository commit ;;
  fs_unlink filename.

End Service.

(** ** What the claims speak of *)

(** The property is present as the error handler tests it: the error is
    truthy and the property reads as a truthy value. *)
Definition has (error : JsVal) (k : string) : bool :=
  truthy error && truthy (get error k).

(** A commit that [checkCommit] lets through: a string of 40 characters of
    [[0-9a-f]]. *)
Definition is_commit_hash (commit : JsVal) : bool :=
  match commit with
  | JsStr s => (String.length s =? 40)%nat && forallb lower_hex (list_ascii_of_string s)
  | _ => false
  end.

(** A hexadecimal digit in the usual sense, in either case. *)
Definition hex_char (c : ascii) : bool :=
  let n := nat_of_ascii c in
  ((48 <=? n)%nat && (n <=? 57)%nat)
  || ((97 <=? n)%nat && (n <=? 102)%nat)
  || ((65 <=? n)%nat && (n <=? 70)%nat).

Definition status_of (e : JsError) : JsVal := get (JsObj e) "status".

(** An HTTP status code: a number from 100 to 999. *)
Definition http_status (v : JsVal) : bool :=
  match v with
  | JsNum n => (100 <=? n) && (n <=? 999)
  | _ => false
  end.

(** The status with which the error handler answers: that of the error
    when it is present, 500 otherwise. *)
Definition answer_status (error : JsVal) : JsVal :=
  if has error "status" then get error "status" else JsNum 500.

(** The repository and commit of a request pass their checks. *)
Definition checks_pass (req : Request) : bool :=
  is_string (get (query req) "repository") && is_commit_hash (get (query req) "commit").

(** Of the operations that leave the process, counted from 0 in the
    order in which they are reached, the [n]-th goes through. *)
Definition io_ok (n : nat) (w : World) : bool :=
  match faults w !! n with
  | Some (Some _) => false
  | _ => true
  end.

(** The name under which the next upload is spooled. *)
Definition uploadFilename (env : gmap string string) (w : World) : string :=
  path_join [STORAGE_ROOT env; "uploads"; uuid_gen w (uuid_used w)].

(** The temp file of the convert job that starts in [w], and the world in
    which its [try] block starts. *)
Definition jobTempFile (env : gmap string string) (w : World) : string :=
  tempFileOf env (uuid_gen w (uuid_used w)).

Definition jobStart (w : World) : World := set_uuid_used (S (uuid_used w)) w.

(** The file of a dump row under the storage root. *)
Definition dump_file (root : string) (d : LsifDump) : string :=
  dbFilename root (dump_id d) (dump_repository d) (dump_commit d).

(** What a reader of the shared state is promised: every dump row has its
    file, and every dump file has its row. *)
Definition rows_have_files (root : string) (w : World) : Prop :=
  forall d, In d (lsif_dumps w) -> is_Some (files w !! dump_file root d).

Definition files_have_rows (root : string) (w : World) : Prop :=
  forall id repository commit,
    is_Some (files w !! dbFilename root id repository commit) ->
    exists d, In d (lsif_dumps w) /\ dump_id d = id.

Definition store_consistent (root : string) (w : World) : Prop :=
  rows_have_files root w /\ files_have_rows root w.

(** A computation that, however it ends, leaves a file that was on disk
    on disk. *)
Definition keeps_file (path : string) {A} (c : M A) : Prop :=
  forall w r w', c w = (r, w') -> is_Some (files w !! path) -> is_Some (files w' !! path).

(** ** A concrete environment in which the handlers run *)

Module Fixture.

Definition env : gmap string string := ∅.

Definition malformed : JsError := [("message", JsStr "Unexpected end of input")].

(** Elements are bytes; a payload is well-formed when it is not empty. *)
Definition externals : Externals :=
  mkExternals Byte.byte
    (fun b => match b with [] => Throw malformed | _ => Return b end)
    (fun l => Return l)
    (fun l => l)
    (fun b => b)
    (fun b => match b with [] => Throw malformed | _ => Return (b, [], []) end)
    (fun _ _ _ => ret (JsBool true))
    (fun _ _ _ _ _ => ret JsNull).

Definition world : World :=
  mkWorld ∅ [] [] [] [] [] 1 [] [] [] freshResponse
    (fun n => "u" +:+ string_of_nat n) 0 [].

Definition lowerCommit : string := "0123456789abcdef0123456789abcdef01234567".
Definition upperCommit : string := "0123456789ABCDEF0123456789ABCDEF01234567".

Definition payload : Bytes := [Byte.x7b; Byte.x7d].

Definition uploadQuery (commit : string) (extra : list (string * JsVal)) : JsVal :=
  JsObj (("repository", JsStr "test") :: ("commit", JsStr commit) :: extra).

(** A store from before the migration: one dump row, its file under the
    old name, no marker. *)
Definition oldDump : LsifDump := mkDump 5 "test" lowerCommit "" false.

Definition unmigrated : World :=
  mkWorld {[ dbFilenameOld "lsif-storage" "test" lowerCommit := payload ]}
    [] [oldDump] [] [] [] 6 [] [] [] freshResponse
    (fun n => "u" +:+ string_of_nat n) 0 [].

(** An upload waits to be converted. *)
Definition upload : string := "lsif-storage/uploads/u9".

Definition spooled (script : list (option JsError)) : World :=
  mkWorld {[ upload := payload ]} [] [] [] [] [] 1 [] [] [] freshResponse
    (fun n => "u" +:+ string_of_nat n) 0 script.

Definition eio : JsError := [("message", JsStr "EIO: i/o error"); ("code", JsStr "EIO")].
Definition eperm : JsError :=
  [("message", JsStr "EPERM: operation not permitted"); ("code", JsStr "EPERM")].

End Fixture.

(** ** More of server.ts and worker.ts *)

(** [process.env[k]]: the string of the variable, or undefined. *)
Definition env_var (env : gmap string string) (k : string) : JsVal :=
  match env !! k with
  | Some s => JsStr s
  | None => JsUndefined
  end.

(** server.ts and worker.ts:
    [process.env.REDIS_STORE_ENDPOINT || process.env.REDIS_ENDPOINT || 'redis-store:6379']. *)
Definition REDIS_ENDPOINT (env : gmap string string) : JsVal :=
  js_or (js_or (env_var env "REDIS_STORE_ENDPOINT") (env_var env "REDIS_ENDPOINT"))
        (JsStr "redis-store:6379").

(** worker.ts: the convert processor applied to the arguments object of a
    job, [{ repository, commit, root, filename }]. *)
Definition convertJobProcessor (env : gmap string string) (X : Externals) (args : JsVal)
    : M unit :=
  createConvertJobProcessor env X
    (js_to_string (get args "repository")) (js_to_string (get args "commit"))
    (js_to_string (get args "root")) (js_to_string (get args "filename")).

(** The methods that /request lets through to the backend. *)
Definition supportedMethods : list string := ["definitions"; "references"; "hover"].

(** A response that has gone out already. *)
Definition answered (w : World) : World :=
  set_response (mkResponse (JsNum 200) true (Some (JsStr "ok"))) w.

(** *** The two phases of POST /upload, once the checks have passed *)

(** The [try] block of the upload handler with its [catch]. *)
Definition spool (source : Completion Bytes) (filename : string) : M unit :=
  try_catch (pipeline source filename)
            (fun e => throw (assign e "status" (JsNum 422))).

(** What follows the [try] block of the upload handler. *)
Definition accept (env : gmap string string) (req : Request) (filename : string)
    : M unit :=
  logger_log "debug" "enqueueing convert job"
             (JsObj [("repository", get (query req) "repository");
                     ("commit", get (query req) "commit");
                     ("root", get (query req) "root")]) ;;
  enqueue "convert" (convert_args (get (query req) "repository")
                                  (get (query req) "commit")
                                  (get (query req) "root") filename) ;;
  res_send uploadSuccessful.

(** A computation that, however it ends, leaves a field of the world as
    it found it. *)
Definition preserves {T} (field : World -> T) {A} (c : M A) : Prop :=
  forall w r w', c w = (r, w') -> field w' = field w.

(** A store in use: the dump of another repository is in place, row and
    file, and an upload waits to be converted. *)
Module Populated.

Definition otherDump : LsifDump := mkDump 5 "other" Fixture.lowerCommit "" false.

Definition otherFile : string := "lsif-storage/5.lsif.db".

Definition world : World :=
  mkWorld {[ Fixture.upload := Fixture.payload; otherFile := [Byte.x01] ]}
    [] [otherDump] [] [] [] 6 [] [] [] freshResponse
    (fun n => "u" +:+ string_of_nat n) 0 [].

End Populated.

(** * Theorems *)

(** ** The monad *)

Lemma bind_Return_inv {A B} (c : M A) (k : A -> M B) w b w' :
  bind c k w = (Return b, w') ->
  exists a w1, c w = (Return a, w1) /\ k a w1 = (Return b, w').
Proof.
  unfold bind. destruct (c w) as [[a|e|] w1]; [eauto | discriminate | discriminate].
Qed.

Lemma bind_Return {A B} (c : M A) (k : A -> M B) w a w1 :
  c w = (Return a, w1) -> bind c k w = k a w1.
Proof. unfold bind. now intros ->. Qed.

Lemma bind_Throw {A B} (c : M A) (k : A -> M B) w e w1 :
  c w = (Throw e, w1) -> bind c k w = (Throw e, w1).
Proof. unfold bind. now intros ->. Qed.

Lemma bind_assoc_run {A B C} (c : M A) (k : A -> M B) (h : B -> M C) w :
  bind (bind c k) h w = bind c (fun a => bind (k a) h) w.
Proof. unfold bind. now destruct (c w) as [[a|e|] w1]. Qed.

Lemma io_point_fault_free w : fault_free w -> io_point w = (Return tt, w).
Proof. unfold fault_free, io_point. now intros ->. Qed.

(** An I/O point touches nothing but the script of pending outcomes. *)
Lemma io_point_frame w r' w' :
  io_point w = (r', w') -> exists f, w' = set_faults f w.
Proof.
  unfold io_point.
  destruct w as [f o d p rf c n j rp l rs g u fl]; simpl.
  destruct fl as [|[e|] rest]; intros [= <- <-]; eexists; reflexivity.
Qed.

Lemma io_point_settles w w' : io_point w = (Pending, w') -> False.
Proof. unfold io_point. destruct (faults w) as [|[e|] rest]; discriminate. Qed.

(** ** C8: the error handler *)

Lemma to_int32_small n : -2 ^ 31 <= n < 2 ^ 31 -> to_int32 n = n.
Proof. intros H. unfold to_int32. rewrite Z.mod_small by lia. lia. Qed.

Lemma http_status_valid v : http_status v = true -> valid_status_code v = true.
Proof.
  destruct v; try discriminate. unfold http_status, valid_status_code, js_int32.
  intros H. apply andb_true_iff in H as [H1 H2].
  apply Z.leb_le in H1. apply Z.leb_le in H2.
  rewrite to_int32_small by lia.
  apply andb_true_iff. split; now apply Z.leb_le.
Qed.

Lemma js_or_and error k d :
  js_or (js_and error (get error k)) d = if has error k then get error k else d.
Proof.
  unfold js_or, js_and, has.
  destruct (truthy error) eqn:E; simpl.
  - reflexivity.
  - now rewrite E.
Qed.

(** The status with which the error handler answers. *)
Lemma errorHandler_code error :
  js_or (js_and error (get error "status")) (JsNum 500) = answer_status error.
Proof. apply js_or_and. Qed.

Lemma no_status error :
  negb (truthy error) || negb (truthy (get error "status")) = negb (has error "status").
Proof. unfold has. now destruct (truthy error), (truthy (get error "status")). Qed.

(** What the error handler leaves behind, field by field, when the status
    is one that can be sent. *)
Lemma errorHandler_run (error : JsVal) (w : World) :
  headersSent (response w) = false ->
  valid_status_code (answer_status error) = true ->
  exists w',
    errorHandler error w = (Return tt, w')
    /\ response w'
       = mkResponse (if has error "status" then get error "status" else JsNum 500)
           true
           (Some (JsObj [("message",
                          if has error "message" then get error "message"
                          else JsStr "Unknown error")]))
    /\ logs w'
       = logs w ++ (if has error "status" then []
                    else [mkLog "error" "uncaught exception" (JsObj [("error", error)])])
    /\ files w' = files w /\ jobs w' = jobs w.
Proof.
  intros Hsent Hvalid. unfold errorHandler.
  rewrite errorHandler_code, js_or_and, no_status.
  unfold bind, logger_log, ret, res_status, res_send.
  fold (answer_status error).
  destruct (has error "status") eqn:Hs; simpl; rewrite Hsent; simpl; rewrite Hvalid;
    (eexists; split; [reflexivity|]); simpl; rewrite ?app_nil_r; repeat split; reflexivity.
Qed.

(** With a status that cannot be sent the error handler throws, and
    nothing goes out. *)
Lemma errorHandler_throws (error : JsVal) (w : World) :
  headersSent (response w) = false ->
  valid_status_code (answer_status error) = false ->
  exists w',
    errorHandler error w
    = (Throw (ERR_HTTP_INVALID_STATUS_CODE (answer_status error)), w')
    /\ headersSent (response w') = false
    /\ sent (response w') = sent (response w)
    /\ files w' = files w /\ jobs w' = jobs w.
Proof.
  intros Hsent Hvalid. unfold errorHandler.
  rewrite errorHandler_code, no_status.
  unfold bind, logger_log, ret, res_status, res_send.
  destruct (has error "status") eqn:Hs; simpl; rewrite Hsent; simpl; rewrite Hvalid;
    (eexists; split; [reflexivity|]); simpl; repeat split; auto.
Qed.

Lemma answer_status_valid error :
  (has error "status" = true -> http_status (get error "status") = true) ->
  valid_status_code (answer_status error) = true.
Proof.
  unfold answer_status. destruct (has error "status").
  - intros H. apply http_status_valid. now apply H.
  - reflexivity.
Qed.




(** ** C5: the repository and commit checks *)

Lemma checkRepository_run repository w :
  checkRepository repository w
  = if is_string repository then (Return tt, w)
    else (Throw (mkError
                   "Must specify the repository (usually of the form github.com/user/repo)"
                   400), w).
Proof. unfold checkRepository. now destruct (is_string repository). Qed.

Lemma length_40_not_empty s : String.length s = 40%nat -> String.eqb s "" = false.
Proof. destruct s; [discriminate | reflexivity]. Qed.

Lemma checkCommit_run commit w :
  if is_commit_hash commit then checkCommit commit w = (Return tt, w)
  else exists e, checkCommit commit w = (Throw e, w) /\ status_of e = JsNum 400.
Proof.
  destruct commit as [| |b|n|s|fs]; simpl; try (eexists; split; reflexivity).
  unfold all_lower_hex.
  destruct (String.length s =? 40)%nat eqn:L; simpl.
  - apply Nat.eqb_eq in L. rewrite (length_40_not_empty s L). simpl.
    destruct (forallb lower_hex (list_ascii_of_string s)); simpl.
    + reflexivity.
    + eexists; split; reflexivity.
  - eexists; split; reflexivity.
Qed.

Lemma checks_run repository commit w :
  if is_string repository && is_commit_hash commit
  then (checkRepository repository ;; checkCommit commit) w = (Return tt, w)
  else exists e, status_of e = JsNum 400
       /\ (checkRepository repository ;; checkCommit commit) w = (Throw e, w).
Proof.
  unfold bind. rewrite checkRepository_run.
  destruct (is_string repository); simpl.
  - pose proof (checkCommit_run commit w) as H.
    destruct (is_commit_hash commit).
    + exact H.
    + destruct H as (e & H & Hs). exists e. now rewrite H.
  - eexists; split; [| reflexivity]; reflexivity.
Qed.

(** C5, as the code has it. The repository and commit checks with which
    /upload, /exists and /request begin let a request through exactly when
    the repository is a string and the commit is a string of 40 characters
    of [0-9a-f] (lower case only); otherwise the handler of each of the
    three endpoints ends there, throwing an error of status 400 and
    leaving the world as it was. The checks are not the only source of a
    400: /exists raises one of its own for a missing file. *)
Theorem repository_commit_checks env X (req : Request) (w : World) :
  let repository := get (query req) "repository" in
  let commit := get (query req) "commit" in
  if is_string repository && is_commit_hash commit
  then (checkRepository repository ;; checkCommit commit) w = (Return tt, w)
  else exists e, status_of e = JsNum 400
       /\ (checkRepository repository ;; checkCommit commit) w = (Throw e, w)
       /\ uploadHandler env X req w = (Throw e, w)
       /\ existsHandler X req w = (Throw e, w)
       /\ requestHandler X req w = (Throw e, w).
Proof.
  intros repository commit.
  pose proof (checks_run repository commit w) as H.
  destruct (is_string repository && is_commit_hash commit); [exact H|].
  destruct H as (e & Hs & H). exists e. split; [exact Hs|]. split; [exact H|].
  unfold uploadHandler, existsHandler, requestHandler.
  fold repository commit.
  unfold bind in *.
  destruct (checkRepository repository w) as [[[]|e1|] w1]; try discriminate.
  - destruct (checkCommit commit w1) as [[[]|e2|] w2]; try discriminate.
    injection H as -> ->. repeat split; reflexivity.
  - injection H as -> ->. repeat split; reflexivity.
Qed.

Lemma repository_commit_checks_witness :
  let req := mkRequest (Fixture.uploadQuery Fixture.lowerCommit []) Fixture.payload
                       JsUndefined in
  (checkRepository (get (query req) "repository") ;;
   checkCommit (get (query req) "commit")) Fixture.world
  = (Return tt, Fixture.world).
Proof.
  intros req.
  exact (repository_commit_checks Fixture.env Fixture.externals req Fixture.world).
Defined.

(** C5, as stated, fails. A commit of 40 upper-case hexadecimal digits is
    answered with 400 although it is a string of 40 hex characters, and
    /exists answers a request whose repository and commit are in order
    with 400 when the file parameter is missing. *)
Lemma commit_400_counterexample :
  let upper := mkRequest (Fixture.uploadQuery Fixture.upperCommit []) Fixture.payload JsUndefined in
  let nofile := mkRequest (Fixture.uploadQuery Fixture.lowerCommit []) [] JsUndefined in
  String.length Fixture.upperCommit = 40%nat
  /\ forallb hex_char (list_ascii_of_string Fixture.upperCommit) = true
  /\ statusCode (response (snd (serve (uploadHandler Fixture.env Fixture.externals)
                                      upper Fixture.world))) = JsNum 400
  /\ is_string (get (query nofile) "repository") = true
  /\ String.length Fixture.lowerCommit = 40%nat
  /\ forallb hex_char (list_ascii_of_string Fixture.lowerCommit) = true
  /\ statusCode (response (snd (serve (existsHandler Fixture.externals)
                                      nofile Fixture.world))) = JsNum 400.
Proof. vm_compute. repeat split; reflexivity. Qed.

(** ** POST /upload *)

Lemma uploadHandler_checked env X req w :
  checks_pass req = true ->
  uploadHandler env X req w
  = (u <- uuid_v4 ;;
     let filename := path_join [STORAGE_ROOT env; "uploads"; u] in
     output <- fs_createWriteStream filename ;;
     try_catch (pipeline (upload_source X
                            (js_str_eqb (get (query req) "skipValidation") "true") req)
                         output)
               (fun e => throw (assign e "status" (JsNum 422))) ;;
     logger_log "debug" "enqueueing convert job"
                (JsObj [("repository", get (query req) "repository");
                        ("commit", get (query req) "commit");
                        ("root", get (query req) "root")]) ;;
     enqueue "convert" (convert_args (get (query req) "repository")
                                     (get (query req) "commit")
                                     (get (query req) "root") filename) ;;
     res_send uploadSuccessful) w.
Proof.
  unfold checks_pass. intros H. apply andb_true_iff in H as [Hr Hc].
  unfold uploadHandler.
  rewrite (bind_Return _ _ w tt w)
    by (rewrite checkRepository_run, Hr; reflexivity).
  pose proof (checkCommit_run (get (query req) "commit") w) as H.
  rewrite Hc in H.
  rewrite (bind_Return _ _ w tt w) by exact H.
  reflexivity.
Qed.

(** Unfolds the sequencing of a handler down to its effects on the world. *)
Ltac run_monad :=
  cbv beta iota zeta delta
    [serve try_catch bind uuid_v4 fs_createWriteStream fs_open fs_create fs_close
     pipeline logger_log enqueue res_send res_json throw pending io_point
     res_status ret];
  simpl.

Lemma upload_checks_fail env X req w :
  checks_pass req = false ->
  exists e, status_of e = JsNum 400 /\ uploadHandler env X req w = (Throw e, w).
Proof.
  unfold checks_pass. intros Hchk.
  pose proof (checks_run (get (query req) "repository") (get (query req) "commit") w) as H.
  rewrite Hchk in H. destruct H as (e & Hs & H). exists e. split; [exact Hs|].
  unfold uploadHandler. unfold bind in *.
  destruct (checkRepository (get (query req) "repository") w) as [[[]|e1|] w1];
    try discriminate.
  - destruct (checkCommit (get (query req) "commit") w1) as [[[]|e2|] w2];
      try discriminate. exact H.
  - exact H.
Qed.

(** The readable side of the pipeline does not fail: it ends, or it does
    not. *)
Lemma upload_source_no_Throw X skip req e : upload_source X skip req <> Throw e.
Proof.
  unfold upload_source, pipe. destruct skip; [discriminate|].
  destruct (validated_lines X req); discriminate.
Qed.

(** With validation on, a body that does not validate makes a source
    that never ends. *)
Lemma upload_source_invalid X req :
  failed (validated_lines X req) = true -> upload_source X false req = Pending.
Proof.
  unfold upload_source, pipe. destruct (validated_lines X req); [discriminate| |];
    reflexivity.
Qed.

Lemma upload_source_valid X req lines :
  validated_lines X req = Return lines ->
  upload_source X false req = Return (createGzip X lines).
Proof. unfold upload_source, pipe. now intros ->. Qed.

(** *** What a computation leaves alone *)

Lemma preserves_bind {T} (field : World -> T) {A B} (c : M A) (k : A -> M B) :
  preserves field c -> (forall a, preserves field (k a)) -> preserves field (bind c k).
Proof.
  intros Hc Hk w r w' H. unfold bind in H.
  destruct (c w) as [[a|e|] w1] eqn:E.
  - rewrite (Hk a _ _ _ H). exact (Hc _ _ _ E).
  - injection H as <- <-. exact (Hc _ _ _ E).
  - injection H as <- <-. exact (Hc _ _ _ E).
Qed.

Lemma preserves_try_catch {T} (field : World -> T) {A} (c : M A) (h : JsError -> M A) :
  preserves field c -> (forall e, preserves field (h e)) ->
  preserves field (try_catch c h).
Proof.
  intros Hc Hh w r w' H. unfold try_catch in H.
  destruct (c w) as [[a|e|] w1] eqn:E.
  - injection H as <- <-. exact (Hc _ _ _ E).
  - rewrite (Hh e _ _ _ H). exact (Hc _ _ _ E).
  - injection H as <- <-. exact (Hc _ _ _ E).
Qed.

(** *** One operation that leaves the process *)

Lemma io_point_ok w :
  io_ok 0 w = true ->
  exists w', io_point w = (Return tt, w') /\ faults w' = drop 1 (faults w)
             /\ files w' = files w.
Proof.
  unfold io_ok, io_point. destruct (faults w) as [|[e|] rest] eqn:F; simpl;
    [|discriminate|]; intros _; eexists; (split; [reflexivity|]); simpl; auto.
Qed.

Lemma io_point_fails w :
  io_ok 0 w = false ->
  exists e w', io_point w = (Throw e, w') /\ files w' = files w.
Proof.
  unfold io_ok, io_point. destruct (faults w) as [|[e|] rest] eqn:F; simpl;
    try discriminate. intros _. do 2 eexists. split; [reflexivity|]. reflexivity.
Qed.

Lemma io_ok_drop k n w w' : faults w' = drop k (faults w) -> io_ok n w' = io_ok (k + n) w.
Proof. unfold io_ok. intros ->. now rewrite lookup_drop. Qed.

Lemma fault_free_io_ok n w : fault_free w -> io_ok n w = true.
Proof. unfold fault_free, io_ok. intros ->. now rewrite lookup_nil. Qed.

(** *** The spooling of an upload *)

Lemma spool_open_fails source filename w :
  io_ok 0 w = false ->
  exists e w',
    spool source filename w = (Throw e, w')
    /\ status_of e = JsNum 422 /\ files w' = files w.
Proof.
  intros Hio. destruct (io_point_fails w Hio) as (e & w1 & Hrun & Hf).
  exists (assign e "status" (JsNum 422)), w1.
  unfold spool, try_catch, pipeline, fs_open.
  rewrite bind_assoc_run, (bind_Throw io_point _ w e w1 Hrun).
  repeat split. exact Hf.
Qed.

(** The file is open: what the source and the write then do. *)
Lemma spool_opened source filename w :
  io_ok 0 w = true ->
  exists w1,
    faults w1 = drop 1 (faults w)
    /\ files w1 = <[filename := []]> (files w)
    /\ spool source filename w
       = try_catch
           (match source with
            | Return data =>
                io_point ;;
                fun w =>
                  (Return tt,
                   set_disk (<[filename := data]> (files w)) [EvWrite filename] w)
            | Throw e => throw e
            | Pending => pending
            end)
           (fun e => throw (assign e "status" (JsNum 422))) w1.
Proof.
  intros Hio. destruct (io_point_ok w Hio) as (w0 & Hrun & Hfl & Hf).
  exists (set_disk (<[filename := []]> (files w0)) [EvWrite filename] w0).
  split; [exact Hfl|]. split; [simpl; now rewrite Hf|].
  unfold spool, try_catch, pipeline, fs_open.
  rewrite bind_assoc_run, (bind_Return io_point _ w tt w0 Hrun).
  reflexivity.
Qed.

Lemma spool_cases source filename w :
  (forall e, source <> Throw e) ->
  (io_ok 0 w = false
   /\ exists e w',
        spool source filename w = (Throw e, w')
        /\ status_of e = JsNum 422 /\ files w' = files w)
  \/ (io_ok 0 w = true /\ source = Pending
      /\ exists w',
           spool source filename w = (Pending, w')
           /\ files w' = <[filename := []]> (files w))
  \/ (io_ok 0 w = true /\ io_ok 1 w = false
      /\ exists data e w',
           source = Return data
           /\ spool source filename w = (Throw e, w')
           /\ status_of e = JsNum 422
           /\ files w' = <[filename := []]> (files w))
  \/ (io_ok 0 w = true /\ io_ok 1 w = true
      /\ exists data w',
           source = Return data
           /\ spool source filename w = (Return tt, w')
           /\ files w' = <[filename := data]> (<[filename := []]> (files w))
           /\ faults w' = drop 2 (faults w)).
Proof.
  intros Hsrc. destruct (io_ok 0 w) eqn:H0.
  2:{ left. split; [reflexivity|]. now apply spool_open_fails. }
  right. destruct (spool_opened source filename w H0) as (w1 & Hfl & Hf & ->).
  destruct source as [data|e|].
  - right. pose proof (io_ok_drop 1 0 w w1 Hfl) as Hshift. simpl in Hshift.
    rewrite <- Hshift. unfold try_catch.
    destruct (io_ok 0 w1) eqn:H1.
    + right. split; [reflexivity|]. split; [reflexivity|].
      destruct (io_point_ok w1 H1) as (w2 & Hrun & Hfl2 & Hf2).
      exists data. eexists. split; [reflexivity|].
      rewrite (bind_Return io_point _ w1 tt w2 Hrun). split; [reflexivity|].
      simpl. split; [now rewrite Hf2, Hf|].
      rewrite Hfl2, Hfl. now rewrite drop_drop.
    + left. split; [reflexivity|]. split; [reflexivity|].
      destruct (io_point_fails w1 H1) as (e & w2 & Hrun & Hf2).
      exists data, (assign e "status" (JsNum 422)), w2. split; [reflexivity|].
      rewrite (bind_Throw io_point _ w1 e w2 Hrun).
      repeat split. now rewrite Hf2.
  - destruct (Hsrc e eq_refl).
  - left. split; [reflexivity|]. split; [reflexivity|].
    exists w1. split; [reflexivity | exact Hf].
Qed.

Lemma preserves_spool {T} (field : World -> T) source filename :
  (forall f w, field (set_faults f w) = field w) ->
  (forall m ev w, field (set_disk m ev w) = field w) ->
  preserves field (spool source filename).
Proof.
  intros Hfaults Hdisk. unfold spool, pipeline, fs_open.
  assert (Hio : preserves field io_point).
  { intros w r w' H. unfold io_point in H.
    destruct (faults w) as [|[e|] rest]; injection H as _ <-; auto. }
  assert (Hwrite : forall p d,
             preserves field
               (fun w => (Return tt, set_disk (<[p := d]> (files w)) [EvWrite p] w))).
  { intros p d w r w' [= _ <-]. apply Hdisk. }
  apply preserves_try_catch; [|intros e w r w' [= _ <-]; reflexivity].
  apply preserves_bind.
  - apply preserves_bind; [exact Hio | intros _; apply Hwrite].
  - intros _. destruct source as [data|e|].
    + apply preserves_bind; [exact Hio | intros _; apply Hwrite].
    + intros w r w' [= _ <-]. reflexivity.
    + intros w r w' [= _ <-]. reflexivity.
Qed.

(** *** Enqueueing and answering *)

Lemma accept_cases env req filename w :
  let job := mkJob "convert" (convert_args (get (query req) "repository")
                                           (get (query req) "commit")
                                           (get (query req) "root") filename) in
  (io_ok 0 w = false
   /\ exists e w',
        accept env req filename w = (Throw e, w')
        /\ files w' = files w /\ jobs w' = jobs w /\ response w' = response w)
  \/ (io_ok 0 w = true
      /\ valid_status_code (statusCode (response w)) = false
      /\ exists w',
           accept env req filename w
           = (Throw (ERR_HTTP_INVALID_STATUS_CODE (statusCode (response w))), w')
           /\ files w' = files w /\ jobs w' = jobs w ++ [job]
           /\ response w' = response w)
  \/ (io_ok 0 w = true
      /\ valid_status_code (statusCode (response w)) = true
      /\ exists w',
           accept env req filename w = (Return tt, w')
           /\ files w' = files w /\ jobs w' = jobs w ++ [job]
           /\ response w'
              = mkResponse (statusCode (response w)) true (Some uploadSuccessful)
           /\ faults w' = drop 1 (faults w)).
Proof.
  intros job.
  assert (Hacc : accept env req filename w
                 = (enqueue "convert" (job_args job) ;; res_send uploadSuccessful)
                     (set_logs
                        (logs w ++ [mkLog "debug" "enqueueing convert job"
                                      (JsObj [("repository", get (query req) "repository");
                                              ("commit", get (query req) "commit");
                                              ("root", get (query req) "root")])]) w))
    by reflexivity.
  rewrite Hacc. clear Hacc. set (w1 := set_logs _ w). unfold enqueue.
  assert (Hw1 : forall n, io_ok n w1 = io_ok n w) by reflexivity.
  destruct (io_ok 0 w) eqn:H0; rewrite <- (Hw1 0%nat) in H0.
  - right. destruct (io_point_ok w1 H0) as (w2 & Hrun & Hfl & Hf).
    assert (Hr2 : response w2 = response w).
    { revert Hrun. unfold io_point. destruct (faults w1) as [|[e|] rest];
        intros [= <-]; reflexivity. }
    assert (Hj2 : jobs w2 = jobs w).
    { revert Hrun. unfold io_point. destruct (faults w1) as [|[e|] rest];
        intros [= <-]; reflexivity. }
    rewrite bind_assoc_run, (bind_Return io_point _ w1 tt w2 Hrun).
    unfold bind, res_send. simpl. rewrite Hr2.
    destruct (valid_status_code (statusCode (response w))) eqn:V.
    + right. split; [reflexivity|]. split; [reflexivity|].
      eexists. split; [reflexivity|]. simpl. rewrite ?Hf, ?Hj2, ?Hr2. auto.
    + left. split; [reflexivity|]. split; [reflexivity|].
      eexists. split; [reflexivity|]. simpl. rewrite ?Hf, ?Hj2, ?Hr2. auto.
  - left. split; [reflexivity|].
    destruct (io_point_fails w1 H0) as (e & w2 & Hrun & Hf).
    assert (Hr2 : response w2 = response w /\ jobs w2 = jobs w).
    { revert Hrun. unfold io_point. destruct (faults w1) as [|[e'|] rest];
        intros [= _ <-]; split; reflexivity. }
    exists e, w2. rewrite bind_assoc_run, (bind_Throw io_point _ w1 e w2 Hrun).
    split; [reflexivity|]. rewrite Hf. destruct Hr2. auto.
Qed.

(** A checked upload, after it has drawn its name: it spools, then it
    enqueues and answers. *)
Lemma uploadHandler_phases env X req w :
  checks_pass req = true ->
  uploadHandler env X req w
  = (spool (upload_source X (js_str_eqb (get (query req) "skipValidation") "true") req)
           (uploadFilename env w) ;;
     accept env req (uploadFilename env w)) (jobStart w).
Proof. intros Hchk. now rewrite uploadHandler_checked. Qed.

(** The ways in which a checked upload ends, in the order in which they
    can happen: the open of the spooled file fails; the source never ends;
    the write fails; the enqueue fails; the send fails; the upload is
    accepted. *)
Lemma upload_cases env X req w :
  checks_pass req = true ->
  let skip := js_str_eqb (get (query req) "skipValidation") "true" in
  let filename := uploadFilename env w in
  let job := mkJob "convert" (convert_args (get (query req) "repository")
                                           (get (query req) "commit")
                                           (get (query req) "root") filename) in
  (exists e w',
      uploadHandler env X req w = (Throw e, w')
      /\ io_ok 0 w = false
      /\ status_of e = JsNum 422
      /\ files w' = files w /\ jobs w' = jobs w /\ response w' = response w)
  \/ (exists w',
      uploadHandler env X req w = (Pending, w')
      /\ io_ok 0 w = true
      /\ upload_source X skip req = Pending
      /\ files w' = <[filename := []]> (files w)
      /\ jobs w' = jobs w /\ response w' = response w)
  \/ (exists data e w',
      uploadHandler env X req w = (Throw e, w')
      /\ io_ok 0 w = true
      /\ upload_source X skip req = Return data
      /\ io_ok 1 w = false
      /\ status_of e = JsNum 422
      /\ files w' = <[filename := []]> (files w)
      /\ jobs w' = jobs w /\ response w' = response w)
  \/ (exists data e w',
      uploadHandler env X req w = (Throw e, w')
      /\ io_ok 0 w = true
      /\ upload_source X skip req = Return data
      /\ io_ok 1 w = true /\ io_ok 2 w = false
      /\ files w' = <[filename := data]> (<[filename := []]> (files w))
      /\ jobs w' = jobs w /\ response w' = response w)
  \/ (exists data w',
      uploadHandler env X req w
      = (Throw (ERR_HTTP_INVALID_STATUS_CODE (statusCode (response w))), w')
      /\ valid_status_code (statusCode (response w)) = false
      /\ upload_source X skip req = Return data
      /\ files w' = <[filename := data]> (<[filename := []]> (files w))
      /\ jobs w' = jobs w ++ [job] /\ response w' = response w)
  \/ (exists data w',
      uploadHandler env X req w = (Return tt, w')
      /\ valid_status_code (statusCode (response w)) = true
      /\ upload_source X skip req = Return data
      /\ io_ok 0 w = true /\ io_ok 1 w = true /\ io_ok 2 w = true
      /\ files w' = <[filename := data]> (<[filename := []]> (files w))
      /\ jobs w' = jobs w ++ [job]
      /\ response w' = mkResponse (statusCode (response w)) true (Some uploadSuccessful)).
Proof.
  intros Hchk skip filename job.
  rewrite uploadHandler_phases by exact Hchk. fold skip filename.
  assert (Hio : forall n, io_ok n (jobStart w) = io_ok n w) by reflexivity.
  assert (Hjobs : preserves jobs (spool (upload_source X skip req) filename))
    by now apply preserves_spool.
  assert (Hresp : preserves response (spool (upload_source X skip req) filename))
    by now apply preserves_spool.
  destruct (spool_cases (upload_source X skip req) filename (jobStart w)
              (upload_source_no_Throw X skip req))
    as [(H0 & e & w1 & Hrun & Hs & Hf)
       |[(H0 & Hsrc & w1 & Hrun & Hf)
        |[(H0 & H1 & data & e & w1 & Hsrc & Hrun & Hs & Hf)
         |(H0 & H1 & data & w1 & Hsrc & Hrun & Hf & Hfl)]]];
    rewrite ?Hio in *;
    pose proof (Hjobs _ _ _ Hrun) as Hj; pose proof (Hresp _ _ _ Hrun) as Hr;
    simpl in Hj, Hr.
  - left. exists e, w1. rewrite (bind_Throw _ _ _ _ _ Hrun). auto 10.
  - right; left. exists w1. unfold bind. rewrite Hrun. auto 10.
  - right; right; left. exists data, e, w1. rewrite (bind_Throw _ _ _ _ _ Hrun). auto 10.
  - rewrite (bind_Return _ _ _ _ _ Hrun).
    pose proof (io_ok_drop 2 0 _ _ Hfl) as H2. simpl in H2. rewrite Hio in H2.
    destruct (accept_cases env req filename w1)
      as [(Ha & e & w2 & Hacc & Hf2 & Hj2 & Hr2)
         |[(Ha & V & w2 & Hacc & Hf2 & Hj2 & Hr2)
          |(Ha & V & w2 & Hacc & Hf2 & Hj2 & Hr2 & _)]];
      rewrite H2 in Ha; rewrite ?Hr in *.
    + right; right; right; left. exists data, e, w2.
      rewrite Hacc, ?Hf2, ?Hj2, ?Hr2, ?Hf, ?Hj, ?Hr. auto 10.
    + right; right; right; right; left. exists data, w2.
      rewrite Hacc, ?Hf2, ?Hj2, ?Hr2, ?Hf, ?Hj, ?Hr. auto 10.
    + right; right; right; right; right. exists data, w2.
      rewrite Hacc, ?Hf2, ?Hj2, ?Hr2, ?Hf, ?Hj, ?Hr. auto 10.
Qed.

Lemma serve_Return h req w w1 :
  h req (set_response freshResponse w) = (Return tt, w1) ->
  serve h req w = (Return tt, w1).
Proof. unfold serve, try_catch. now intros ->. Qed.

Lemma serve_Pending h req w w1 :
  h req (set_response freshResponse w) = (Pending, w1) ->
  serve h req w = (Pending, w1).
Proof. unfold serve, try_catch. now intros ->. Qed.

(** Whatever error a handler throws, the error handler leaves disk and
    queue alone, and what it sends, if it sends, is the message of an
    error. *)
Lemma serve_Throw_any h req w e w1 :
  h req (set_response freshResponse w) = (Throw e, w1) ->
  response w1 = freshResponse ->
  exists r w',
    serve h req w = (r, w')
    /\ files w' = files w1 /\ jobs w' = jobs w1
    /\ (sent (response w') = None
        \/ sent (response w')
           = Some (JsObj [("message",
                           if has (JsObj e) "message" then get (JsObj e) "message"
                           else JsStr "Unknown error")])).
Proof.
  intros H Hres. unfold serve, try_catch. rewrite H.
  destruct (valid_status_code (answer_status (JsObj e))) eqn:V.
  - destruct (errorHandler_run (JsObj e) w1) as (w' & Hrun & Hr & _ & Hf & Hj);
      [now rewrite Hres | exact V |].
    exists (Return tt), w'. rewrite Hr. simpl. auto.
  - destruct (errorHandler_throws (JsObj e) w1) as (w' & Hrun & _ & Hs & Hf & Hj);
      [now rewrite Hres | exact V |].
    eexists _, w'. split; [exact Hrun|]. rewrite Hs, Hres. simpl. auto.
Qed.

(** C4, as the code has it. With validation enabled, for a request whose
    repository and commit pass their checks: when the body fails to parse
    and validate and the spooled file opens, the request is never
    answered, with 422 or otherwise. The error of the validating chain
    is not passed on by [pipe], the pipeline that is awaited never
    settles, and the [catch] that stamps 422 is not reached: nothing is
    sent and no job is enqueued. When the body validates and nothing of
    the environment fails, the validated stream is persisted under
    uploads/<uuid>, a convert job for it is enqueued and the answer is
    200. *)
Theorem upload_invalid_body_unanswered env X (req : Request) (w : World) :
  js_str_eqb (get (query req) "skipValidation") "true" = false ->
  checks_pass req = true ->
  let run := serve (uploadHandler env X) req w in
  let filename := uploadFilename env w in
  (failed (validated_lines X req) = true ->
   io_ok 0 w = true ->
   fst run = Pending
   /\ headersSent (response (snd run)) = false
   /\ sent (response (snd run)) = None
   /\ statusCode (response (snd run)) <> JsNum 422
   /\ jobs (snd run) = jobs w)
  /\ (forall lines,
        validated_lines X req = Return lines ->
        fault_free w ->
        fst run = Return tt
        /\ statusCode (response (snd run)) = JsNum 200
        /\ sent (response (snd run)) = Some uploadSuccessful
        /\ files (snd run) !! filename = Some (createGzip X lines)
        /\ jobs (snd run)
           = jobs w ++ [mkJob "convert"
                          (convert_args (get (query req) "repository")
                                        (get (query req) "commit")
                                        (get (query req) "root") filename)]).
Proof.
  intros Hskip Hchk run filename. subst run.
  pose proof (upload_cases env X req (set_response freshResponse w) Hchk) as H.
  rewrite Hskip in H. cbv zeta in H.
  change (uploadFilename env (set_response freshResponse w)) with filename in H.
  change (io_ok 0 (set_response freshResponse w)) with (io_ok 0 w) in H.
  change (io_ok 1 (set_response freshResponse w)) with (io_ok 1 w) in H.
  change (io_ok 2 (set_response freshResponse w)) with (io_ok 2 w) in H.
  split.
  - intros Hbad Hopen. apply upload_source_invalid in Hbad.
    destruct H as [(e & w1 & _ & Hno & _)
                  |[(w1 & Hrun & _ & _ & _ & Hj & Hr)
                   |[(data & e & w1 & _ & _ & Hsrc & _)
                    |[(data & e & w1 & _ & _ & Hsrc & _)
                     |[(data & w1 & _ & _ & Hsrc & _)
                      |(data & w1 & _ & _ & Hsrc & _)]]]]];
      try congruence.
    rewrite (serve_Pending _ _ _ _ Hrun). simpl. rewrite Hr. simpl.
    repeat split; try reflexivity; [discriminate | exact Hj].
  - intros lines Hlines Hff. apply upload_source_valid in Hlines.
    assert (Hio : forall n, io_ok n w = true).
    { intros n. unfold io_ok. unfold fault_free in Hff. rewrite Hff.
      now rewrite lookup_nil. }
    destruct H as [(e & w1 & _ & Hno & _)
                  |[(w1 & _ & _ & Hsrc & _)
                   |[(data & e & w1 & _ & _ & _ & Hno & _)
                    |[(data & e & w1 & _ & _ & _ & _ & Hno & _)
                     |[(data & w1 & _ & Hno & _)
                      |(data & w1 & Hrun & _ & Hsrc & _ & _ & _ & Hf & Hj & Hr)]]]]];
      try (rewrite Hio in Hno; discriminate); try congruence; try discriminate.
    rewrite (serve_Return _ _ _ _ Hrun). simpl. rewrite Hr, Hf, Hj. simpl.
    rewrite Hlines in Hsrc. injection Hsrc as <-.
    repeat split; try reflexivity. apply lookup_insert_eq.
Qed.

Lemma upload_invalid_body_unanswered_witness :
  let req := mkRequest (Fixture.uploadQuery Fixture.lowerCommit []) [] JsUndefined in
  let run := serve (uploadHandler Fixture.env Fixture.externals) req Fixture.world in
  fst run = Pending
  /\ sent (response (snd run)) = None
  /\ jobs (snd run) = [].
Proof.
  intros req run.
  destruct (proj1 (upload_invalid_body_unanswered Fixture.env Fixture.externals req
                     Fixture.world eq_refl eq_refl) eq_refl eq_refl)
    as (Hrun & _ & Hsent & _ & Hjobs).
  split; [exact Hrun | split; [exact Hsent | exact Hjobs]].
Defined.

(** C9. With skipValidation=true, a request whose repository and commit
    pass their checks is spooled as it is: whatever the body and whatever
    the parser and the validator would say of it, when no operation of
    the environment fails the file uploads/<uuid> holds the body byte
    for byte, a convert job for that file is enqueued and the answer is
    200. *)
Theorem upload_skipValidation_raw env X (req : Request) (w : World) :
  get (query req) "skipValidation" = JsStr "true" ->
  checks_pass req = true ->
  fault_free w ->
  let filename := uploadFilename env w in
  exists w',
    (forall X', serve (uploadHandler env X') req w = (Return tt, w'))
    /\ serve (uploadHandler env X) req w = (Return tt, w')
    /\ files w' !! filename = Some (body req)
    /\ jobs w' = jobs w
                 ++ [mkJob "convert"
                       (convert_args (get (query req) "repository")
                                     (get (query req) "commit")
                                     (get (query req) "root") filename)]
    /\ statusCode (response w') = JsNum 200
    /\ sent (response w') = Some uploadSuccessful.
Proof.
  intros Hskip Hchk Hff filename.
  assert (Hany : forall X' w0, uploadHandler env X' req w0 = uploadHandler env X req w0).
  { intros X' w0. unfold uploadHandler. rewrite Hskip. reflexivity. }
  assert (Hio : forall n, io_ok n (set_response freshResponse w) = true)
    by (intros n; now apply fault_free_io_ok).
  pose proof (upload_cases env X req (set_response freshResponse w) Hchk) as H.
  cbv zeta in H. rewrite Hskip in H.
  change (js_str_eqb (JsStr "true") "true") with true in H.
  change (upload_source X true req) with (@Return Bytes (body req)) in H.
  change (uploadFilename env (set_response freshResponse w)) with filename in H.
  rewrite !Hio in H.
  destruct H as [(e & w1 & _ & Hno & _)
                |[(w1 & _ & _ & Hsrc & _)
                 |[(data & e & w1 & _ & _ & _ & Hno & _)
                  |[(data & e & w1 & _ & _ & _ & _ & Hno & _)
                   |[(data & w1 & _ & Hno & _)
                    |(data & w1 & Hrun & _ & [= <-] & _ & _ & _ & Hf & Hj & Hr)]]]]];
    try discriminate.
  exists w1. split; [|split].
  - intros X'. apply serve_Return. now rewrite Hany.
  - now apply serve_Return.
  - rewrite Hr, Hf. simpl. rewrite lookup_insert_eq. auto.
Qed.

Lemma upload_skipValidation_raw_witness :
  let req := mkRequest (Fixture.uploadQuery Fixture.lowerCommit
                          [("skipValidation", JsStr "true")]) [] JsUndefined in
  failed (validated_lines Fixture.externals req) = true
  /\ exists w',
      serve (uploadHandler Fixture.env Fixture.externals) req Fixture.world
      = (Return tt, w')
      /\ files w' !! uploadFilename Fixture.env Fixture.world = Some []
      /\ statusCode (response w') = JsNum 200.
Proof.
  intros req. split; [reflexivity|].
  destruct (upload_skipValidation_raw Fixture.env Fixture.externals req Fixture.world
              eq_refl eq_refl eq_refl) as (w' & _ & Hrun & Hf & _ & Hs & _).
  exists w'. split; [exact Hrun | split; [exact Hf | exact Hs]].
Defined.

(** C10. An accepted POST /upload whose root parameter is absent or empty
    enqueues a convert job whose root is the empty string and whose
    repository, commit and spooled filename are those of the request. *)
Theorem upload_job_arguments env X (req : Request) (w w' : World) :
  get (query req) "root" = JsUndefined \/ get (query req) "root" = JsStr "" ->
  uploadHandler env X req w = (Return tt, w') ->
  jobs w' = jobs w
            ++ [mkJob "convert"
                  (JsObj [("repository", get (query req) "repository");
                          ("commit", get (query req) "commit");
                          ("root", JsStr "");
                          ("filename", JsStr (uploadFilename env w))])]
  /\ is_Some (files w' !! uploadFilename env w).
Proof.
  intros Hroot Hrun.
  destruct (checks_pass req) eqn:Hchk.
  - destruct (upload_cases env X req w Hchk)
      as [(e & w1 & Hrun' & _)
         |[(w1 & Hrun' & _)
          |[(data & e & w1 & Hrun' & _)
           |[(data & e & w1 & Hrun' & _)
            |[(data & w1 & Hrun' & _)
             |(data & w1 & Hrun' & _ & _ & _ & _ & _ & Hf & Hj & _)]]]]];
      rewrite Hrun in Hrun'; try discriminate.
    injection Hrun' as <-. split; [|rewrite Hf, lookup_insert_eq; eauto].
    rewrite Hj. unfold convert_args.
    destruct Hroot as [-> | ->]; reflexivity.
  - destruct (upload_checks_fail env X req w Hchk) as (e & _ & Hrun').
    rewrite Hrun in Hrun'. discriminate.
Qed.

Lemma upload_job_arguments_witness :
  let req := mkRequest (Fixture.uploadQuery Fixture.lowerCommit []) Fixture.payload
                       JsUndefined in
  let w' := snd (uploadHandler Fixture.env Fixture.externals req Fixture.world) in
  jobs w' = [mkJob "convert"
               (JsObj [("repository", JsStr "test");
                       ("commit", JsStr Fixture.lowerCommit);
                       ("root", JsStr "");
                       ("filename", JsStr "lsif-storage/uploads/u0")])].
Proof.
  intros req w'.
  exact (proj1 (upload_job_arguments Fixture.env Fixture.externals req Fixture.world w'
                  (or_introl eq_refl) eq_refl)).
Defined.

(** ** C7: the migration of the file names *)

Lemma fs_rename_fault_free oldPath newPath data w :
  fault_free w ->
  files w !! oldPath = Some data ->
  fs_rename oldPath newPath w
  = (Return tt,
     set_disk (<[newPath := data]> (delete oldPath (files w)))
              [EvRename oldPath newPath] w).
Proof.
  intros Hff Hold. unfold fs_rename.
  rewrite (bind_Return _ _ w tt w) by now apply io_point_fault_free.
  now rewrite Hold.
Qed.

Lemma fs_touch_fault_free path w :
  fault_free w ->
  fs_touch path w
  = (Return tt, set_disk (<[path := []]> (files w)) [EvWrite path] w).
Proof.
  intros Hff. unfold fs_touch, fs_open, fs_close.
  rewrite bind_assoc_run.
  rewrite (bind_Return io_point _ w tt w) by now apply io_point_fault_free.
  unfold bind, fs_create. now apply io_point_fault_free.
Qed.

(** A run of the loop over the dump rows: it goes through, and every row
    whose old file is on disk at the start has that file renamed. *)
Lemma migrate_all env (l : list LsifDump) :
  forall w,
    fault_free w ->
    exists w' evs,
      for_each l (migrate_dump env) w = (Return tt, w')
      /\ fault_free w'
      /\ oplog w' = oplog w ++ evs
      /\ repeatable w' = repeatable w
      /\ Forall (fun ev => exists d, In d l
                                    /\ ev = EvRename (oldFile env d) (newFile env d)) evs
      /\ (forall d, In d l -> is_Some (files w !! oldFile env d) ->
            exists d', In d' l /\ oldFile env d' = oldFile env d
                       /\ In (EvRename (oldFile env d) (newFile env d')) evs).
Proof.
  induction l as [|x rest IH]; intros w Hff.
  - exists w, []. simpl. rewrite app_nil_r. repeat split; auto.
    intros d [].
  - simpl. unfold migrate_dump at 1, fs_exists.
    destruct (files w !! oldFile env x) as [data|] eqn:Hx.
    + (* the old file is there: it is renamed *)
      set (w1 := set_disk (<[newFile env x := data]> (delete (oldFile env x) (files w)))
                          [EvRename (oldFile env x) (newFile env x)] w).
      assert (Hstep : (present <- (fun w0 => (Return (bool_decide (is_Some (files w0 !! oldFile env x))), w0)) ;;
                       if negb present then ret tt
                       else fs_rename (oldFile env x) (newFile env x)) w
                      = (Return tt, w1)).
      { unfold bind at 1. rewrite Hx.
        rewrite bool_decide_true by eauto. simpl.
        now apply fs_rename_fault_free. }
      rewrite (bind_Return _ _ w tt w1 Hstep).
      destruct (IH w1 Hff) as (w' & evs & Hrun & Hff' & Hlog & Hrep & Honly & Hall).
      exists w', (EvRename (oldFile env x) (newFile env x) :: evs).
      split; [exact Hrun|]. split; [exact Hff'|].
      split; [rewrite Hlog; simpl; now rewrite <- app_assoc|].
      split; [exact Hrep|].
      split.
      { constructor; [exists x; split; [now left | reflexivity]|].
        eapply Forall_impl; [exact Honly|]. intros ev (d & Hd & ->).
        exists d. split; [now right | reflexivity]. }
      intros d [<-|Hin] Hd.
      * exists x. repeat split; [now left | now left].
      * destruct (decide (oldFile env x = oldFile env d)) as [Heq|Hne].
        -- exists x. split; [now left|]. split; [exact Heq|]. left. now rewrite Heq.
        -- destruct (Hall d Hin) as (d' & Hin' & Heq' & Hev).
           { simpl. destruct (decide (newFile env x = oldFile env d)) as [->|Hne'].
             - rewrite lookup_insert_eq. eauto.
             - rewrite lookup_insert_ne by exact Hne'.
               now rewrite lookup_delete_ne by exact Hne. }
           exists d'. split; [now right|]. split; [exact Heq'|]. now right.
    + (* the old file is missing: continue *)
      assert (Hstep : (present <- (fun w0 => (Return (bool_decide (is_Some (files w0 !! oldFile env x))), w0)) ;;
                       if negb present then ret tt
                       else fs_rename (oldFile env x) (newFile env x)) w
                      = (Return tt, w)).
      { unfold bind at 1. rewrite Hx.
        rewrite bool_decide_false by (intros [? ?]; discriminate). reflexivity. }
      rewrite (bind_Return _ _ w tt w Hstep).
      destruct (IH w Hff) as (w' & evs & Hrun & Hff' & Hlog & Hrep & Honly & Hall).
      exists w', evs. repeat split; auto.
      { eapply Forall_impl; [exact Honly|]. intros ev (d & Hd & ->).
        exists d. split; [now right | reflexivity]. }
      intros d [<-|Hin] Hd.
      * rewrite Hx in Hd. destruct Hd as [? ?]. discriminate.
      * destruct (Hall d Hin Hd) as (d' & Hin' & Heq' & Hev).
        exists d'. split; [now right|]. split; assumption.
Qed.

Lemma ensureFilenamesAreIDs_done env w :
  is_Some (files w !! doneFile env) ->
  ensureFilenamesAreIDs env w = (Return tt, w).
Proof.
  intros H. unfold ensureFilenamesAreIDs, bind, fs_exists.
  now rewrite bool_decide_true by exact H.
Qed.

Lemma ensureFilenamesAreIDs_migrates env w :
  files w !! doneFile env = None ->
  fault_free w ->
  exists w' evs,
    ensureFilenamesAreIDs env w = (Return tt, w')
    /\ fault_free w'
    /\ oplog w' = oplog w ++ evs ++ [EvWrite (doneFile env)]
    /\ repeatable w' = repeatable w
    /\ is_Some (files w' !! doneFile env)
    /\ Forall (fun ev => exists d, In d (lsif_dumps w)
                                  /\ ev = EvRename (oldFile env d) (newFile env d)) evs
    /\ (forall d, In d (lsif_dumps w) -> is_Some (files w !! oldFile env d) ->
          exists d', In d' (lsif_dumps w) /\ oldFile env d' = oldFile env d
                     /\ In (EvRename (oldFile env d) (newFile env d')) evs).
Proof.
  intros Hnone Hff.
  destruct (migrate_all env (lsif_dumps w) w Hff)
    as (w1 & evs & Hrun & Hff1 & Hlog & Hrep & Honly & Hall).
  unfold ensureFilenamesAreIDs, fs_exists. unfold bind at 1.
  rewrite bool_decide_false by (rewrite Hnone; intros [? ?]; discriminate).
  assert (Hfind : find_dumps w = (Return (lsif_dumps w), w)).
  { unfold find_dumps.
    now rewrite (bind_Return io_point _ w tt w) by now apply io_point_fault_free. }
  rewrite (bind_Return find_dumps _ w _ w Hfind).
  rewrite (bind_Return (for_each _ _) _ w tt w1 Hrun).
  rewrite (fs_touch_fault_free _ w1 Hff1).
  exists (set_disk (<[doneFile env := []]> (files w1)) [EvWrite (doneFile env)] w1), evs.
  split; [reflexivity|]. simpl.
  split; [exact Hff1|]. split; [now rewrite Hlog, <- app_assoc|].
  split; [exact Hrep|]. split; [rewrite lookup_insert_eq; eauto|].
  split; [exact Honly | exact Hall].
Qed.



(** ** The convert job *)

(** Splits a primitive that starts with an I/O point into its outcomes. *)
Ltac io_cases H :=
  cbv beta delta [bind] in H;
  match type of H with
  | context [io_point ?w] =>
      let E := fresh "E" in
      let f := fresh "f" in
      destruct (io_point w) as [[[]|?|] ?] eqn:E;
      [| |exfalso; exact (io_point_settles _ _ E)];
      apply io_point_frame in E; destruct E as [f ->]
  end.

Lemma fs_rename_Return a b w w' :
  fs_rename a b w = (Return tt, w') ->
  exists data,
    files w !! a = Some data
    /\ files w' = <[b := data]> (delete a (files w))
    /\ lsif_dumps w' = lsif_dumps w
    /\ oplog w' = oplog w ++ [EvRename a b].
Proof.
  unfold fs_rename. intros H. io_cases H; [|discriminate].
  simpl in H. destruct (files w !! a) as [data|] eqn:Ha; [|discriminate].
  injection H as <-. exists data. auto.
Qed.

Lemma fs_rename_Throw a b w e w' :
  fs_rename a b w = (Throw e, w') ->
  files w' = files w /\ lsif_dumps w' = lsif_dumps w /\ oplog w' = oplog w.
Proof.
  unfold fs_rename. intros H. io_cases H.
  - simpl in H. destruct (files w !! a); [discriminate|]. injection H as _ <-. auto.
  - injection H as _ <-. auto.
Qed.

Lemma fs_unlink_Return p w w' :
  fs_unlink p w = (Return tt, w') ->
  files w' = delete p (files w)
  /\ lsif_dumps w' = lsif_dumps w
  /\ oplog w' = oplog w ++ [EvUnlink p].
Proof.
  unfold fs_unlink. intros H. io_cases H; [|discriminate].
  simpl in H. destruct (files w !! p); [|discriminate].
  injection H as <-. auto.
Qed.

Lemma fs_unlink_Throw p w e w' :
  fs_unlink p w = (Throw e, w') ->
  files w' = files w /\ lsif_dumps w' = lsif_dumps w /\ oplog w' = oplog w.
Proof.
  unfold fs_unlink. intros H. io_cases H.
  - simpl in H. destruct (files w !! p); [discriminate|]. injection H as _ <-. auto.
  - injection H as _ <-. auto.
Qed.

Lemma convertLsif_Return X filename tempFile w pr w' :
  convertLsif X filename tempFile w = (Return pr, w') ->
  is_Some (files w' !! tempFile)
  /\ lsif_dumps w' = lsif_dumps w
  /\ next_dump_id w' = next_dump_id w.
Proof.
  unfold convertLsif, fs_create. intros H.
  cbv beta delta [bind] in H. cbv beta iota in H.
  io_cases H; [|discriminate]. simpl in H.
  destruct (_ !! filename) as [input|]; [|discriminate].
  destruct (importLsif X input) as [[[db pk] rf]| |]; try discriminate.
  injection H as _ <-. simpl. rewrite lookup_insert_eq. eauto.
Qed.

Lemma addPackagesAndReferences_Return repository commit root pk rf w dump w' :
  addPackagesAndReferences repository commit root pk rf w = (Return dump, w') ->
  dump = mkDump (next_dump_id w) repository commit root false
  /\ In dump (lsif_dumps w')
  /\ files w' = files w
  /\ oplog w' = oplog w.
Proof.
  unfold addPackagesAndReferences. intros H. io_cases H; [|discriminate].
  simpl in H. injection H as <- <-. simpl.
  repeat split. apply in_or_app. right. now left.
Qed.

Lemma discoverAndUpdateCommit_run repository commit w r w' :
  discoverAndUpdateCommit repository commit w = (r, w') ->
  files w' = files w /\ lsif_dumps w' = lsif_dumps w /\ oplog w' = oplog w.
Proof.
  unfold discoverAndUpdateCommit. intros H. io_cases H.
  - injection H as _ <-. auto.
  - injection H as _ <-. auto.
Qed.

(** The operations of the disk and of the databases settle. *)
Lemma fs_unlink_settles p w w' : fs_unlink p w = (Pending, w') -> False.
Proof.
  unfold fs_unlink. intros H. io_cases H; [|discriminate].
  simpl in H. destruct (files w !! p); discriminate.
Qed.

Lemma fs_rename_settles a b w w' : fs_rename a b w = (Pending, w') -> False.
Proof.
  unfold fs_rename. intros H. io_cases H; [|discriminate].
  simpl in H. destruct (files w !! a); discriminate.
Qed.

Lemma addPackagesAndReferences_settles repository commit root pk rf w w' :
  addPackagesAndReferences repository commit root pk rf w = (Pending, w') -> False.
Proof. unfold addPackagesAndReferences. intros H. io_cases H; discriminate. Qed.

Lemma discoverAndUpdateCommit_settles repository commit w w' :
  discoverAndUpdateCommit repository commit w = (Pending, w') -> False.
Proof. unfold discoverAndUpdateCommit. intros H. io_cases H; discriminate. Qed.

Lemma convert_cleanup_throws tempFile e w r w' :
  convert_cleanup tempFile e w = (r, w') -> failed r = true.
Proof.
  unfold convert_cleanup, bind, throw.
  destruct (fs_unlink tempFile w) as [[[]|e'|] w1] eqn:Hunlink;
    [| |destruct (fs_unlink_settles _ _ _ Hunlink)];
    intros [= <- _]; reflexivity.
Qed.

(** The job, after it has drawn the name of its temp file. *)
Lemma createConvertJobProcessor_start env X repository commit root filename w :
  createConvertJobProcessor env X repository commit root filename w
  = (try_catch (convert_steps env X repository commit root filename (jobTempFile env w))
               (convert_cleanup (jobTempFile env w)) ;;
     discoverAndUpdateCommit repository commit ;;
     fs_unlink filename) (jobStart w).
Proof. reflexivity. Qed.

Lemma convertLsif_frame X filename tempFile w r w' :
  convertLsif X filename tempFile w = (r, w') ->
  (forall p, p <> tempFile -> files w' !! p = files w !! p)
  /\ lsif_dumps w' = lsif_dumps w.
Proof.
  unfold convertLsif, fs_create. intros H.
  cbv beta delta [bind] in H. cbv beta iota in H.
  assert (Hframe : forall (m : gmap string Bytes) data p,
             p <> tempFile -> <[tempFile := data]> m !! p = m !! p)
    by (intros; now apply lookup_insert_ne).
  io_cases H; [|injection H as _ <-; simpl; auto]. simpl in H.
  destruct (_ !! filename) as [input|]; [|injection H as _ <-; simpl; auto].
  destruct (importLsif X input) as [[[db pk] rf]| |]; injection H as _ <-; simpl;
    [|auto|auto].
  split; [|reflexivity]. intros p Hp. now rewrite !Hframe.
Qed.

Lemma addPackagesAndReferences_files repository commit root pk rf w r w' :
  addPackagesAndReferences repository commit root pk rf w = (r, w') ->
  files w' = files w.
Proof.
  unfold addPackagesAndReferences. intros H. io_cases H; now injection H as _ <-.
Qed.

(** A try block that does not return has changed no file but, at most,
    the temp file. *)
Lemma convert_steps_stops env X repository commit root filename tempFile w r w1 :
  convert_steps env X repository commit root filename tempFile w = (r, w1) ->
  r <> Return tt ->
  forall p, p <> tempFile -> files w1 !! p = files w !! p.
Proof.
  unfold convert_steps. intros H Hr p Hp. unfold bind in H.
  destruct (convertLsif X filename tempFile w) as [[pr|e1|] wa] eqn:Hconv;
    apply convertLsif_frame in Hconv as [Hfa _];
    [|injection H as _ <-; now apply Hfa|injection H as _ <-; now apply Hfa].
  destruct (addPackagesAndReferences _ _ _ _ _ wa) as [[d|e2|] wb] eqn:Hadd;
    [| |destruct (addPackagesAndReferences_settles _ _ _ _ _ _ _ Hadd)];
    apply addPackagesAndReferences_files in Hadd;
    [|injection H as _ <-; rewrite Hadd; now apply Hfa].
  destruct r as [[]|e|].
  - now destruct Hr.
  - apply fs_rename_Throw in H as (-> & _). rewrite Hadd. now apply Hfa.
  - destruct (fs_rename_settles _ _ _ _ H).
Qed.

(** A try block that fails has changed no file but, at most, the temp file. *)
Lemma convert_steps_Throw env X repository commit root filename tempFile w e w1 :
  convert_steps env X repository commit root filename tempFile w = (Throw e, w1) ->
  forall p, p <> tempFile -> files w1 !! p = files w !! p.
Proof. intros H. now apply (convert_steps_stops _ _ _ _ _ _ _ _ _ _ H). Qed.

(** A try block that returns has committed the row of the new dump, and
    the one file it has added, the temp file apart, is the file of that
    dump. *)
Lemma convert_steps_Return env X repository commit root filename tempFile w w1 :
  convert_steps env X repository commit root filename tempFile w = (Return tt, w1) ->
  let dump := mkDump (next_dump_id w) repository commit root false in
  In dump (lsif_dumps w1)
  /\ is_Some (files w1 !! dump_file (STORAGE_ROOT env) dump)
  /\ oplog w1 = oplog w ++ [EvWrite tempFile; EvWrite tempFile;
                            EvRename tempFile (dump_file (STORAGE_ROOT env) dump)]
  /\ (forall p, p <> tempFile -> is_Some (files w1 !! p) ->
         is_Some (files w !! p) \/ p = dump_file (STORAGE_ROOT env) dump).
Proof.
  intros H dump. unfold convert_steps in H.
  apply bind_Return_inv in H as (pr & wa & Hconv & H).
  apply bind_Return_inv in H as (d & wb & Hadd & Hren).
  pose proof (convertLsif_frame _ _ _ _ _ _ Hconv) as [Hfa _].
  assert (Hoa : oplog wa = oplog w ++ [EvWrite tempFile; EvWrite tempFile]).
  { revert Hconv. unfold convertLsif, fs_create. intros Hconv.
    cbv beta delta [bind] in Hconv. cbv beta iota in Hconv.
    io_cases Hconv; [|discriminate]. simpl in Hconv.
    destruct (_ !! filename) as [input|]; [|discriminate].
    destruct (importLsif X input) as [[[db pk] rf]| |]; try discriminate.
    injection Hconv as _ <-. simpl. now rewrite <- app_assoc. }
  apply convertLsif_Return in Hconv as (_ & Hda & Hna).
  apply addPackagesAndReferences_Return in Hadd as (-> & Hin & Hfb & Hob).
  rewrite Hna in *. fold dump in Hin, Hren.
  change (dbFilename (STORAGE_ROOT env) (dump_id dump) repository commit)
    with (dump_file (STORAGE_ROOT env) dump) in Hren.
  apply fs_rename_Return in Hren as (data & _ & Hf1 & Hd1 & Ho1).
  split; [now rewrite Hd1|]. split; [rewrite Hf1, lookup_insert_eq; eauto|].
  split; [rewrite Ho1, Hob, Hoa, <- app_assoc; reflexivity|].
  intros p Hp. rewrite Hf1.
  destruct (decide (dump_file (STORAGE_ROOT env) dump = p)) as [<-|Hne]; [now right|].
  rewrite lookup_insert_ne by exact Hne. rewrite lookup_delete_ne by congruence.
  rewrite Hfb, (Hfa p Hp). now left.
Qed.

(** C1, as the code has it. A convert job completes only after the rows
    of the cross-repo database have been committed and, after that, the
    rename of the temp database to the name of the new dump has gone
    through: when the job returns, the row of the new dump is in the
    database and its file is on disk under that name. And however the job
    ends, the only file it has added, its temp file apart, is the file of
    the dump whose row it has committed: the job puts no file in place
    without a row. (The converse fails: the row is committed before the
    rename and is not taken back when the rename fails.) *)
Theorem convert_complete_row_and_file env X repository commit root filename (w : World) :
  let job := createConvertJobProcessor env X repository commit root filename in
  let dump := mkDump (next_dump_id w) repository commit root false in
  let dumpFile := dump_file (STORAGE_ROOT env) dump in
  (forall w',
      job w = (Return tt, w') ->
      filename <> dumpFile ->
      In dump (lsif_dumps w')
      /\ is_Some (files w' !! dumpFile)
      /\ In (EvRename (jobTempFile env w) dumpFile) (oplog w'))
  /\ (forall r w' p,
        job w = (r, w') ->
        p <> jobTempFile env w ->
        is_Some (files w' !! p) ->
        is_Some (files w !! p) \/ (p = dumpFile /\ In dump (lsif_dumps w'))).
Proof.
  intros job dump dumpFile. subst job. split.
  - intros w' Hrun Hne. rewrite createConvertJobProcessor_start in Hrun.
    apply bind_Return_inv in Hrun as ([] & w3 & Htry & Hrun).
    apply bind_Return_inv in Hrun as ([] & w4 & Hdisc & Hunlink).
    (* the try block returned: its handler cannot *)
    unfold try_catch in Htry.
    destruct (convert_steps _ _ _ _ _ _ _ _) as [[[]|e|] w3'] eqn:Hsteps;
      [injection Htry as <- | apply convert_cleanup_throws in Htry; discriminate
      |discriminate].
    apply convert_steps_Return in Hsteps as (Hin & Hfile & Hlog & _).
    apply discoverAndUpdateCommit_run in Hdisc as (Hf4 & Hd4 & Ho4).
    apply fs_unlink_Return in Hunlink as (Hf5 & Hd5 & Ho5).
    split; [|split].
    + rewrite Hd5, Hd4. exact Hin.
    + rewrite Hf5, Hf4. now rewrite lookup_delete_ne by exact Hne.
    + rewrite Ho5, Ho4, Hlog. apply in_or_app. left. apply in_or_app. right.
      simpl. auto.
  - intros r w' p Hrun Hp Hsome. rewrite createConvertJobProcessor_start in Hrun.
    unfold bind at 1, try_catch in Hrun.
    destruct (convert_steps _ _ _ _ _ _ _ _) as [[[]|e|] w1] eqn:Hsteps.
    + (* the try block returned *)
      apply convert_steps_Return in Hsteps as (Hin & _ & _ & Hadded).
      assert (Hlater : is_Some (files w1 !! p) /\ lsif_dumps w' = lsif_dumps w1).
      { unfold bind in Hrun.
        destruct (discoverAndUpdateCommit repository commit w1) as [[[]|e|] w2] eqn:Hdisc;
          [| |destruct (discoverAndUpdateCommit_settles _ _ _ _ Hdisc)];
          apply discoverAndUpdateCommit_run in Hdisc as (Hf2 & Hd2 & _).
        - destruct r as [[]|e|].
          + apply fs_unlink_Return in Hrun as (Hf3 & Hd3 & _).
            rewrite Hf3 in Hsome. split; [|congruence].
            rewrite <- Hf2. destruct Hsome as [x Hx].
            apply lookup_delete_Some in Hx as [_ Hx]. eauto.
          + apply fs_unlink_Throw in Hrun as (Hf3 & Hd3 & _).
            split; congruence.
          + destruct (fs_unlink_settles _ _ _ Hrun).
        - injection Hrun as _ <-. split; congruence. }
      destruct Hlater as [Hsome1 Hd]. rewrite Hd.
      destruct (Hadded p Hp Hsome1) as [Hold | ->]; [now left | now right].
    + (* the try block failed *)
      left. pose proof (convert_steps_Throw _ _ _ _ _ _ _ _ _ _ Hsteps p Hp) as Hsame.
      simpl in Hsame. rewrite <- Hsame.
      unfold convert_cleanup, bind, throw in Hrun.
      destruct (fs_unlink (jobTempFile env w) w1) as [[[]|e'|] w2] eqn:Hunlink;
        [| |destruct (fs_unlink_settles _ _ _ Hunlink)];
        injection Hrun as _ <-.
      * apply fs_unlink_Return in Hunlink as (Hf & _). rewrite Hf in Hsome.
        destruct Hsome as [x Hx]. apply lookup_delete_Some in Hx as [_ Hx]. eauto.
      * apply fs_unlink_Throw in Hunlink as (Hf & _). now rewrite <- Hf.
    + (* the importer never settles *)
      left. injection Hrun as _ <-.
      assert (Hstop : @Pending unit <> Return tt) by discriminate.
      pose proof (convert_steps_stops _ _ _ _ _ _ _ _ _ _ Hsteps Hstop p Hp) as Hsame.
      simpl in Hsame. now rewrite <- Hsame.
Qed.

Lemma dbFilename_not_upload id repository commit :
  dbFilename "lsif-storage" id repository commit <> Fixture.upload.
Proof.
  unfold dbFilename, string_of_nat, Fixture.upload. simpl.
  destruct (Nat.to_uint id); simpl; intros [=].
Qed.

Lemma convert_complete_row_and_file_witness :
  let w' := snd (createConvertJobProcessor Fixture.env Fixture.externals
                   "test" Fixture.lowerCommit "" Fixture.upload (Fixture.spooled [])) in
  In (mkDump 1 "test" Fixture.lowerCommit "" false) (lsif_dumps w')
  /\ is_Some (files w' !! "lsif-storage/1.lsif.db").
Proof.
  intros w'.
  assert (Hrun : createConvertJobProcessor Fixture.env Fixture.externals
                   "test" Fixture.lowerCommit "" Fixture.upload (Fixture.spooled [])
                 = (Return tt, w')) by (vm_compute; reflexivity).
  destruct (proj1 (convert_complete_row_and_file Fixture.env Fixture.externals
                     "test" Fixture.lowerCommit "" Fixture.upload (Fixture.spooled []))
              w' Hrun) as (Hin & Hfile & _).
  { intros H. symmetry in H. revert H. apply dbFilename_not_upload. }
  split; [exact Hin | exact Hfile].
Defined.

(** C1, as stated, fails. The store starts consistent; the conversion and
    the registration go through and the rename fails. The job fails, and
    what it leaves behind is the row of dump 1 without a file: the row was
    committed before the rename and is not taken back. *)
Lemma convert_row_without_file :
  let root := STORAGE_ROOT Fixture.env in
  let w0 := Fixture.spooled [None; None; Some Fixture.eio] in
  let run := createConvertJobProcessor Fixture.env Fixture.externals
               "test" Fixture.lowerCommit "" Fixture.upload w0 in
  store_consistent root w0
  /\ fst run = Throw Fixture.eio
  /\ In (mkDump 1 "test" Fixture.lowerCommit "" false) (lsif_dumps (snd run))
  /\ files (snd run) !! dump_file root (mkDump 1 "test" Fixture.lowerCommit "" false) = None
  /\ ~ store_consistent root (snd run).
Proof.
  intros root w0 run.
  assert (Hin : In (mkDump 1 "test" Fixture.lowerCommit "" false) (lsif_dumps (snd run)))
    by (vm_compute; now left).
  assert (Hnone : files (snd run)
                  !! dump_file root (mkDump 1 "test" Fixture.lowerCommit "" false) = None)
    by (vm_compute; reflexivity).
  split; [|split; [vm_compute; reflexivity | split; [exact Hin | split; [exact Hnone|]]]].
  - split.
    + intros d [].
    + intros id repository commit [data Hdata]. exfalso.
      change (files w0) with ({[ Fixture.upload := Fixture.payload ]} : gmap string Bytes)
        in Hdata.
      apply lookup_singleton_Some in Hdata as [Heq _].
      symmetry in Heq. revert Heq. apply dbFilename_not_upload.
  - intros [Hrows _]. destruct (Hrows _ Hin) as [data Hdata].
    rewrite Hnone in Hdata. discriminate.
Qed.

(** ** C2: what a failing convert job leaves behind *)

Lemma keeps_file_bind p {A B} (c : M A) (k : A -> M B) :
  keeps_file p c -> (forall a, keeps_file p (k a)) -> keeps_file p (bind c k).
Proof.
  intros Hc Hk w r w' H Hp. unfold bind in H.
  destruct (c w) as [[a|e|] w1] eqn:E.
  - exact (Hk a _ _ _ H (Hc _ _ _ E Hp)).
  - injection H as <- <-. exact (Hc _ _ _ E Hp).
  - injection H as <- <-. exact (Hc _ _ _ E Hp).
Qed.

Lemma keeps_file_try_catch p {A} (c : M A) (h : JsError -> M A) :
  keeps_file p c -> (forall e, keeps_file p (h e)) -> keeps_file p (try_catch c h).
Proof.
  intros Hc Hh w r w' H Hp. unfold try_catch in H.
  destruct (c w) as [[a|e|] w1] eqn:E.
  - injection H as <- <-. exact (Hc _ _ _ E Hp).
  - exact (Hh e _ _ _ H (Hc _ _ _ E Hp)).
  - injection H as <- <-. exact (Hc _ _ _ E Hp).
Qed.

Lemma keeps_file_throw p {A} e : keeps_file p (@throw A e).
Proof. intros w r w' [= <- <-] Hp. exact Hp. Qed.

Lemma keeps_file_convertLsif p X filename tempFile :
  keeps_file p (convertLsif X filename tempFile).
Proof.
  intros w r w' H Hp. unfold convertLsif, fs_create in H.
  cbv beta delta [bind] in H. cbv beta iota in H.
  assert (Hp0 : is_Some (<[tempFile := []]> (files w) !! p)).
  { destruct (decide (tempFile = p)) as [->|Hne].
    - rewrite lookup_insert_eq. eauto.
    - now rewrite lookup_insert_ne. }
  io_cases H; [|injection H as _ <-; exact Hp0]. simpl in H.
  destruct (_ !! filename) as [input|]; [|injection H as _ <-; exact Hp0].
  destruct (importLsif X input) as [[[db pk] rf]| |]; injection H as _ <-;
    [|exact Hp0|exact Hp0].
  simpl. destruct (decide (tempFile = p)) as [->|Hne].
  - rewrite lookup_insert_eq. eauto.
  - now rewrite lookup_insert_ne.
Qed.

Lemma keeps_file_addPackagesAndReferences p repository commit root pk rf :
  keeps_file p (addPackagesAndReferences repository commit root pk rf).
Proof.
  intros w r w' H Hp. unfold addPackagesAndReferences in H.
  io_cases H; injection H as _ <-; exact Hp.
Qed.

Lemma keeps_file_fs_rename p a b : p <> a -> keeps_file p (fs_rename a b).
Proof.
  intros Hne w r w' H Hp. destruct r as [[]|e|].
  - apply fs_rename_Return in H as (data & _ & -> & _).
    destruct (decide (b = p)) as [->|Hne'].
    + rewrite lookup_insert_eq. eauto.
    + rewrite lookup_insert_ne by exact Hne'. now rewrite lookup_delete_ne.
  - apply fs_rename_Throw in H as (-> & _). exact Hp.
  - destruct (fs_rename_settles _ _ _ _ H).
Qed.

Lemma keeps_file_fs_unlink p a : p <> a -> keeps_file p (fs_unlink a).
Proof.
  intros Hne w r w' H Hp. destruct r as [[]|e|].
  - apply fs_unlink_Return in H as (-> & _). now rewrite lookup_delete_ne.
  - apply fs_unlink_Throw in H as (-> & _). exact Hp.
  - destruct (fs_unlink_settles _ _ _ H).
Qed.

Lemma keeps_file_discoverAndUpdateCommit p repository commit :
  keeps_file p (discoverAndUpdateCommit repository commit).
Proof.
  intros w r w' H Hp. apply discoverAndUpdateCommit_run in H as (-> & _). exact Hp.
Qed.

(** Everything the job does before it removes the upload leaves the
    upload where it is. *)
Lemma convert_keeps_upload env X repository commit root filename tempFile :
  filename <> tempFile ->
  keeps_file filename
    (try_catch (convert_steps env X repository commit root filename tempFile)
               (convert_cleanup tempFile) ;;
     discoverAndUpdateCommit repository commit).
Proof.
  intros Hne. apply keeps_file_bind.
  - apply keeps_file_try_catch.
    + unfold convert_steps.
      apply keeps_file_bind; [apply keeps_file_convertLsif|]. intros pr.
      apply keeps_file_bind; [apply keeps_file_addPackagesAndReferences|]. intros d.
      now apply keeps_file_fs_rename.
    + intros e. unfold convert_cleanup.
      apply keeps_file_bind; [now apply keeps_file_fs_unlink|]. intros _.
      apply keeps_file_throw.
  - intros _. apply keeps_file_discoverAndUpdateCommit.
Qed.

Lemma convert_failure_run env X repository commit root filename w e w1 :
  convert_steps env X repository commit root filename (jobTempFile env w) (jobStart w)
  = (Throw e, w1) ->
  createConvertJobProcessor env X repository commit root filename w
  = match fs_unlink (jobTempFile env w) w1 with
    | (Return _, w2) => (Throw e, w2)
    | (Throw e', w2) => (Throw e', w2)
    | (Pending, w2) => (Pending, w2)
    end.
Proof.
  intros Hsteps. rewrite createConvertJobProcessor_start.
  unfold bind at 1, try_catch. rewrite Hsteps.
  unfold convert_cleanup, bind, throw.
  now destruct (fs_unlink (jobTempFile env w) w1) as [[[]|e'|] w2].
Qed.

(** C2, as the code has it. When a step of the try block of a convert
    job fails (the conversion, the registration or the rename), the job
    unlinks the temp file and fails: it rethrows the error of the step
    when the unlink goes through, and then the temp file is gone; when
    the unlink itself fails, its error is the one the job fails with.
    The upload is unlinked by a job that succeeds, and a job that fails,
    at whatever step, leaves an upload that was there in place. *)
Theorem convert_failure_cleanup env X repository commit root filename (w : World) :
  let tempFile := jobTempFile env w in
  let job := createConvertJobProcessor env X repository commit root filename in
  filename <> tempFile ->
  (forall e w1,
      convert_steps env X repository commit root filename tempFile (jobStart w)
      = (Throw e, w1) ->
      failed (fst (job w)) = true
      /\ (forall w2, fs_unlink tempFile w1 = (Return tt, w2) ->
            job w = (Throw e, w2) /\ files w2 !! tempFile = None)
      /\ (forall e' w2, fs_unlink tempFile w1 = (Throw e', w2) ->
            job w = (Throw e', w2)))
  /\ (forall w', job w = (Return tt, w') -> files w' !! filename = None)
  /\ (forall e w', job w = (Throw e, w') ->
        is_Some (files w !! filename) -> is_Some (files w' !! filename)).
Proof.
  intros tempFile job Hne. split; [|split].
  - intros e w1 Hsteps. subst job.
    rewrite (convert_failure_run _ _ _ _ _ _ _ _ _ Hsteps). fold tempFile.
    destruct (fs_unlink tempFile w1) as [[[]|e'|] w2] eqn:Hunlink;
      [| |destruct (fs_unlink_settles _ _ _ Hunlink)].
    + split; [reflexivity|]. split.
      * intros w2' [= <-]. split; [reflexivity|].
        apply fs_unlink_Return in Hunlink as (-> & _). apply lookup_delete_eq.
      * intros e' w2' [=].
    + split; [reflexivity|]. split.
      * intros w2' [=].
      * intros e'' w2' [= <- <-]. reflexivity.
  - intros w' Hrun. subst job. rewrite createConvertJobProcessor_start in Hrun.
    rewrite <- (bind_assoc_run _ _ _ _) in Hrun.
    apply bind_Return_inv in Hrun as ([] & w3 & _ & Hunlink).
    apply fs_unlink_Return in Hunlink as (-> & _). apply lookup_delete_eq.
  - intros e w' Hrun Hp. subst job. rewrite createConvertJobProcessor_start in Hrun.
    rewrite <- (bind_assoc_run _ _ _ _) in Hrun.
    unfold bind at 1 in Hrun.
    destruct ((try_catch _ _ ;; discoverAndUpdateCommit repository commit) (jobStart w))
      as [[[]|e0|] w3] eqn:Hbody; [| |discriminate].
    + apply fs_unlink_Throw in Hrun as (-> & _).
      exact (convert_keeps_upload env X repository commit root filename tempFile Hne
               _ _ _ Hbody Hp).
    + injection Hrun as _ <-.
      exact (convert_keeps_upload env X repository commit root filename tempFile Hne
               _ _ _ Hbody Hp).
Qed.

Lemma convert_failure_cleanup_witness :
  let w0 := Fixture.spooled [Some Fixture.eio] in
  let run := createConvertJobProcessor Fixture.env Fixture.externals
               "test" Fixture.lowerCommit "" Fixture.upload w0 in
  fst run = Throw Fixture.eio
  /\ files (snd run) !! jobTempFile Fixture.env w0 = None
  /\ is_Some (files (snd run) !! Fixture.upload).
Proof.
  intros w0 run.
  destruct (convert_failure_cleanup Fixture.env Fixture.externals
              "test" Fixture.lowerCommit "" Fixture.upload w0)
    as (Hfail & _ & Hkeep).
  { vm_compute. intros [=]. }
  destruct (Hfail Fixture.eio
              (snd (convert_steps Fixture.env Fixture.externals "test" Fixture.lowerCommit
                      "" Fixture.upload (jobTempFile Fixture.env w0) (jobStart w0))))
    as (_ & Hunlinked & _).
  { vm_compute. reflexivity. }
  destruct (Hunlinked (snd run)) as (Hrun & Hgone).
  { vm_compute. reflexivity. }
  split; [subst run; now rewrite Hrun|]. split; [exact Hgone|].
  apply (Hkeep Fixture.eio (snd run)).
  - exact Hrun.
  - vm_compute. eauto.
Defined.

(** C2, as stated, fails. The conversion fails with an I/O error and the
    unlink of the temp file fails in its turn: the job does not rethrow
    the error of the conversion but fails with that of the unlink, and the
    temp file is still on disk. *)
Lemma convert_cleanup_counterexample :
  let w0 := Fixture.spooled [Some Fixture.eio; Some Fixture.eperm] in
  let tempFile := jobTempFile Fixture.env w0 in
  let run := createConvertJobProcessor Fixture.env Fixture.externals
               "test" Fixture.lowerCommit "" Fixture.upload w0 in
  fst (convert_steps Fixture.env Fixture.externals "test" Fixture.lowerCommit ""
         Fixture.upload tempFile (jobStart w0)) = Throw Fixture.eio
  /\ fst run = Throw Fixture.eperm
  /\ fst run <> Throw Fixture.eio
  /\ files (snd run) !! tempFile = Some [].
Proof. vm_compute. repeat split; try reflexivity. intros [=]. Qed.

(** * Further properties of the server and the worker *)

(** ** The error handler and the answers of the server *)

(** X1. Once the headers have gone out the error handler leaves the
    response alone, whatever the error: status and body stay as they
    were sent. It still logs an error that carries no status, it touches
    neither disk nor queue, and it does not throw. *)
Theorem errorHandler_headers_sent (error : JsVal) (w : World) :
  headersSent (response w) = true ->
  exists w',
    errorHandler error w = (Return tt, w')
    /\ response w' = response w
    /\ files w' = files w /\ jobs w' = jobs w
    /\ logs w'
       = logs w ++ (if has error "status" then []
                    else [mkLog "error" "uncaught exception" (JsObj [("error", error)])]).
Proof.
  intros Hsent. unfold errorHandler, bind, logger_log, ret, has.
  destruct (truthy error) eqn:E; simpl;
    [destruct (truthy (get error "status")) eqn:S; simpl|];
    rewrite ?Hsent; simpl; rewrite ?app_nil_r;
    eexists; (split; [reflexivity|]); simpl; rewrite ?app_nil_r; repeat split; reflexivity.
Qed.

Lemma errorHandler_headers_sent_witness :
  let w' := snd (errorHandler (JsObj Fixture.eio) (answered Fixture.world)) in
  response w' = mkResponse (JsNum 200) true (Some (JsStr "ok"))
  /\ length (logs w') = 1%nat.
Proof.
  destruct (errorHandler_headers_sent (JsObj Fixture.eio) (answered Fixture.world) eq_refl)
    as (w' & Hrun & Hres & _ & _ & Hlogs).
  rewrite Hrun. simpl. split; [exact Hres|]. now rewrite Hlogs.
Defined.

(** The error handler never writes to the disk. *)
Lemma errorHandler_files error w r w' :
  errorHandler error w = (r, w') -> files w' = files w /\ jobs w' = jobs w.
Proof.
  unfold errorHandler, bind, logger_log, ret, res_status, res_send.
  destruct (negb (truthy error) || negb (truthy (get error "status"))); simpl;
    destruct (negb (headersSent (response w))); simpl;
    try destruct (valid_status_code _);
    intros [= <- <-]; split; reflexivity.
Qed.

Lemma list_neq_snoc {A} (l : list A) (x : A) : l <> l ++ [x].
Proof.
  intros H. apply (f_equal (@length A)) in H. rewrite length_app in H. simpl in H. lia.
Qed.

(** X3. The client of POST /upload is told of success exactly when a
    convert job has been enqueued for its upload: the success message goes
    out if and only if the queue has grown by the job of this request, and
    then the spooled file holds what was accepted; in every other case the
    queue is as it was. *)
Theorem upload_success_iff_enqueued env X (req : Request) (w : World) :
  let w' := snd (serve (uploadHandler env X) req w) in
  let filename := uploadFilename env w in
  let job := mkJob "convert" (convert_args (get (query req) "repository")
                                           (get (query req) "commit")
                                           (get (query req) "root") filename) in
  (sent (response w') = Some uploadSuccessful <-> jobs w' = jobs w ++ [job])
  /\ (sent (response w') <> Some uploadSuccessful -> jobs w' = jobs w)
  /\ (sent (response w') = Some uploadSuccessful ->
      exists data,
        upload_source X (js_str_eqb (get (query req) "skipValidation") "true") req
        = Return data
        /\ files w' !! filename = Some data).
Proof.
  intros w' filename job.
  assert (Hno : sent (response w') <> Some uploadSuccessful /\ jobs w' = jobs w ->
                (sent (response w') = Some uploadSuccessful <-> jobs w' = jobs w ++ [job])
                /\ (sent (response w') <> Some uploadSuccessful -> jobs w' = jobs w)
                /\ (sent (response w') = Some uploadSuccessful ->
                    exists data,
                      upload_source X
                        (js_str_eqb (get (query req) "skipValidation") "true") req
                      = Return data
                      /\ files w' !! filename = Some data)).
  { intros [Hs Hj]. split; [|split].
    - split; [intros H; contradiction|].
      rewrite Hj. intros H. destruct (list_neq_snoc _ _ H).
    - intros _. exact Hj.
    - intros H. contradiction. }
  assert (Hthrow : forall e w1,
             uploadHandler env X req (set_response freshResponse w) = (Throw e, w1) ->
             response w1 = freshResponse -> jobs w1 = jobs w ->
             sent (response w') <> Some uploadSuccessful /\ jobs w' = jobs w).
  { intros e w1 Hrun Hres Hj. subst w'.
    destruct (serve_Throw_any _ _ _ _ _ Hrun Hres) as (r & w2 & Hserve & _ & Hj2 & Hs).
    rewrite Hserve. simpl. rewrite Hj2. split; [|exact Hj].
    destruct Hs as [-> | ->]; discriminate. }
  destruct (checks_pass req) eqn:Hchk.
  - destruct (upload_cases env X req (set_response freshResponse w) Hchk)
      as [(e & w1 & Hrun & _ & _ & _ & Hj & Hr)
         |[(w1 & Hrun & _ & _ & _ & Hj & Hr)
          |[(data & e & w1 & Hrun & _ & _ & _ & _ & _ & Hj & Hr)
           |[(data & e & w1 & Hrun & _ & _ & _ & _ & _ & Hj & Hr)
            |[(data & w1 & _ & V & _)
             |(data & w1 & Hrun & _ & Hsrc & _ & _ & _ & Hf & Hj & Hr)]]]]].
    + apply Hno. exact (Hthrow e w1 Hrun Hr Hj).
    + apply Hno. subst w'. rewrite (serve_Pending _ _ _ _ Hrun). simpl.
      rewrite Hr. split; [discriminate | exact Hj].
    + apply Hno. exact (Hthrow e w1 Hrun Hr Hj).
    + apply Hno. exact (Hthrow e w1 Hrun Hr Hj).
    + discriminate V.
    + subst w'. rewrite (serve_Return _ _ _ _ Hrun). simpl. rewrite Hr. simpl.
      split; [|split].
      * split; [intros _; exact Hj | reflexivity].
      * intros H. now destruct H.
      * intros _. exists data. split; [exact Hsrc|].
        rewrite Hf. apply lookup_insert_eq.
  - destruct (upload_checks_fail env X req (set_response freshResponse w) Hchk)
      as (e & _ & Hrun).
    apply Hno. exact (Hthrow e _ Hrun eq_refl eq_refl).
Qed.

(** A checked upload writes the spooled file and nothing else, however it
    ends; and the file is there once it has been opened. *)
Lemma uploadHandler_files env X req w r w' :
  checks_pass req = true ->
  uploadHandler env X req w = (r, w') ->
  (io_ok 0 w = true -> is_Some (files w' !! uploadFilename env w))
  /\ (io_ok 0 w = false -> files w' = files w)
  /\ forall p, p <> uploadFilename env w -> files w' !! p = files w !! p.
Proof.
  intros Hchk Hrun.
  assert (Hone : forall m : gmap string Bytes,
             is_Some (<[uploadFilename env w := []]> m !! uploadFilename env w)
             /\ forall p, p <> uploadFilename env w ->
                          <[uploadFilename env w := []]> m !! p = m !! p).
  { intros m. split; [rewrite lookup_insert_eq; eauto|].
    intros p Hp. now rewrite lookup_insert_ne by congruence. }
  assert (Htwo : forall (m : gmap string Bytes) data,
             is_Some (<[uploadFilename env w := data]>
                        (<[uploadFilename env w := []]> m) !! uploadFilename env w)
             /\ forall p, p <> uploadFilename env w ->
                          <[uploadFilename env w := data]>
                            (<[uploadFilename env w := []]> m) !! p = m !! p).
  { intros m data. split; [rewrite lookup_insert_eq; eauto|].
    intros p Hp. now rewrite !lookup_insert_ne by congruence. }
  destruct (upload_cases env X req w Hchk)
    as [(e & w1 & Hrun' & H0 & _ & Hf & _)
       |[(w1 & Hrun' & H0 & _ & Hf & _)
        |[(data & e & w1 & Hrun' & H0 & _ & _ & _ & Hf & _)
         |[(data & e & w1 & Hrun' & H0 & _ & _ & _ & Hf & _)
          |[(data & w1 & Hrun' & _ & _ & Hf & _)
           |(data & w1 & Hrun' & _ & _ & H0 & _ & _ & Hf & _)]]]]];
    rewrite Hrun in Hrun'; injection Hrun' as Hr <-; rewrite Hf.
  - rewrite H0. split; [discriminate|]. split; [reflexivity|]. reflexivity.
  - rewrite H0. split; [intros _; apply Hone|]. split; [discriminate | apply Hone].
  - rewrite H0. split; [intros _; apply Hone|]. split; [discriminate | apply Hone].
  - rewrite H0. split; [intros _; apply Htwo|]. split; [discriminate | apply Htwo].
  - split; [intros _; apply Htwo|]. split; [|apply Htwo].
    intros H0. exfalso.
    (* the send is reached only when the open went through *)
    revert Hrun. rewrite uploadHandler_phases by exact Hchk. intros Hrun.
    destruct (spool_open_fails
                (upload_source X (js_str_eqb (get (query req) "skipValidation") "true")
                   req)
                (uploadFilename env w) (jobStart w) H0) as (e & w2 & Hsp & Hs & _).
    rewrite (bind_Throw _ _ _ _ _ Hsp), Hr in Hrun. injection Hrun as -> _.
    discriminate Hs.
  - rewrite H0. split; [intros _; apply Htwo|]. split; [discriminate | apply Htwo].
Qed.

(** The error handler that closes a request writes no file. *)
Lemma serve_files h req w :
  files (snd (serve h req w)) = files (snd (h req (set_response freshResponse w))).
Proof.
  unfold serve, try_catch.
  destruct (h req (set_response freshResponse w)) as [[[]|e|] w1];
    [reflexivity| |reflexivity].
  destruct (errorHandler (JsObj e) w1) as [r w2] eqn:Herr.
  apply errorHandler_files in Herr as [Hf _]. exact Hf.
Qed.

(** X4. The upload handler has no cleanup. Once the spooled file
    uploads/<uuid> of a request that passes the parameter checks has been
    opened, it is on disk in every outcome: also when the write is
    rejected with 422, when the body never validates, or when the enqueue
    fails, where no job will ever pick it up. When the open fails the
    disk is as it was; and no other path of the disk is changed by the
    request in any case. *)
Theorem upload_spool_file_stays env X (req : Request) (w : World) :
  checks_pass req = true ->
  let w' := snd (serve (uploadHandler env X) req w) in
  (io_ok 0 w = true -> is_Some (files w' !! uploadFilename env w))
  /\ (io_ok 0 w = false -> files w' = files w)
  /\ (forall p, p <> uploadFilename env w -> files w' !! p = files w !! p).
Proof.
  intros Hchk w'. subst w'. rewrite serve_files.
  destruct (uploadHandler env X req (set_response freshResponse w)) as [r w1] eqn:Hrun.
  exact (uploadHandler_files env X req _ _ _ Hchk Hrun).
Qed.

Lemma upload_spool_file_stays_witness :
  let req := mkRequest (Fixture.uploadQuery Fixture.lowerCommit []) Fixture.payload
               JsUndefined in
  let w0 := set_faults [None; Some Fixture.eio] Fixture.world in
  let w' := snd (serve (uploadHandler Fixture.env Fixture.externals) req w0) in
  statusCode (response w') = JsNum 422
  /\ jobs w' = []
  /\ is_Some (files w' !! "lsif-storage/uploads/u0").
Proof.
  intros req w0 w'. split; [vm_compute; reflexivity|]. split; [vm_compute; reflexivity|].
  exact (proj1 (upload_spool_file_stays Fixture.env Fixture.externals req w0 eq_refl)
           eq_refl).
Defined.

(** ** POST /exists and POST /request *)

(** X5. POST /exists looks at the file only after the repository and the
    commit: a request whose repository and commit pass but whose file is not
    a string is answered 400 with a message that names the file; the
    answer does not depend on the backend, and disk and queue stay as they
    were. *)
Theorem exists_checks_file X (req : Request) (w : World) :
  checks_pass req = true ->
  is_string (get (query req) "file") = false ->
  let w' := snd (serve (existsHandler X) req w) in
  response w'
  = mkResponse (JsNum 400) true
      (Some (JsObj [("message",
                     JsStr ("Must specify a file "
                            +:+ js_to_string (get (query req) "file")))]))
  /\ files w' = files w /\ jobs w' = jobs w /\ logs w' = logs w
  /\ forall X', serve (existsHandler X') req w = serve (existsHandler X) req w.
Proof.
  intros Hchk Hfile w'.
  assert (Hrun : forall X0 w0,
             existsHandler X0 req w0
             = (Throw (mkError ("Must specify a file "
                                +:+ js_to_string (get (query req) "file")) 400), w0)).
  { intros X0 w0. unfold existsHandler.
    pose proof (checks_run (get (query req) "repository") (get (query req) "commit") w0)
      as H.
    unfold checks_pass in Hchk. rewrite Hchk in H.
    unfold bind in *.
    destruct (checkRepository (get (query req) "repository") w0) as [[[]|e1|] w1];
      try discriminate.
    destruct (checkCommit (get (query req) "commit") w1) as [[[]|e2|] w2];
      try discriminate.
    injection H as ->. unfold checkFile. rewrite Hfile. reflexivity. }
  assert (Hserve : forall X0,
             serve (existsHandler X0) req w
             = errorHandler
                 (JsObj (mkError ("Must specify a file "
                                  +:+ js_to_string (get (query req) "file")) 400))
                 (set_response freshResponse w)).
  { intros X0. unfold serve, try_catch. now rewrite Hrun. }
  subst w'. rewrite Hserve.
  destruct (errorHandler_run
              (JsObj (mkError ("Must specify a file "
                               +:+ js_to_string (get (query req) "file")) 400))
              (set_response freshResponse w) eq_refl eq_refl)
    as (w1 & Herr & Hr & Hl & Hf & Hj).
  rewrite Herr. cbn [snd]. rewrite Hr, Hf, Hj, Hl.
  split; [reflexivity|]. split; [reflexivity|]. split; [reflexivity|].
  split; [apply app_nil_r|].
  intros X'. now rewrite !Hserve.
Qed.

Lemma exists_checks_file_witness :
  let req := mkRequest (Fixture.uploadQuery Fixture.lowerCommit []) [] JsUndefined in
  statusCode (response (snd (serve (existsHandler Fixture.externals) req Fixture.world)))
  = JsNum 400.
Proof.
  intros req.
  destruct (exists_checks_file Fixture.externals req Fixture.world eq_refl eq_refl)
    as [H _].
  now rewrite H.
Defined.

(** X6. POST /request with a method other than definitions, references
    or hover never reaches the backend: the answer is the same for every
    backend, and disk and queue stay as they were. The repository and
    commit checks come first, so the status is 400 when they fail and 422,
    with the list of the supported methods, when they pass. *)
Theorem request_checks_method X (req : Request) (w : World) :
  existsb (js_str_eqb (get (json req) "method")) supportedMethods = false ->
  let w' := snd (serve (requestHandler X) req w) in
  statusCode (response w') = (if checks_pass req then JsNum 422 else JsNum 400)
  /\ (checks_pass req = true ->
      sent (response w')
      = Some (JsObj [("message",
                      JsStr "Method must be one of definitions, references, hover")]))
  /\ files w' = files w /\ jobs w' = jobs w
  /\ forall X', serve (requestHandler X') req w = serve (requestHandler X) req w.
Proof.
  intros Hm w'.
  set (w1 := set_response freshResponse w).
  assert (Hrun : exists e,
             status_of e = (if checks_pass req then JsNum 422 else JsNum 400)
             /\ (checks_pass req = true ->
                 e = mkError "Method must be one of definitions, references, hover" 422)
             /\ forall X0, requestHandler X0 req w1 = (Throw e, w1)).
  { pose proof (checks_run (get (query req) "repository") (get (query req) "commit") w1)
      as H.
    unfold checks_pass. unfold requestHandler.
    destruct (is_string (get (query req) "repository")
              && is_commit_hash (get (query req) "commit")).
    - eexists. split; [|split; [reflexivity|]].
      2:{ intros X0. unfold bind in *.
          destruct (checkRepository (get (query req) "repository") w1)
            as [[[]|e1|] w2]; try discriminate.
          destruct (checkCommit (get (query req) "commit") w2) as [[[]|e2|] w3];
            try discriminate.
          injection H as ->. unfold checkMethod.
          change ["definitions"; "references"; "hover"] with supportedMethods.
          rewrite Hm. reflexivity. }
      reflexivity.
    - destruct H as (e & Hs & H). exists e. split; [exact Hs|].
      split; [discriminate|]. intros X0. unfold bind in *.
      destruct (checkRepository (get (query req) "repository") w1)
        as [[[]|e1|] w2]; try discriminate.
      + destruct (checkCommit (get (query req) "commit") w2) as [[[]|e2|] w3];
          [discriminate | exact H | discriminate].
      + exact H. }
  destruct Hrun as (e & Hs & He & Hrun).
  assert (Hvalid : valid_status_code (answer_status (JsObj e)) = true).
  { unfold answer_status, has. change (get (JsObj e) "status") with (status_of e).
    rewrite Hs. now destruct (checks_pass req). }
  assert (Hserve : forall X0, serve (requestHandler X0) req w = errorHandler (JsObj e) w1).
  { intros X0. unfold serve, try_catch. fold w1. now rewrite Hrun. }
  subst w'. rewrite Hserve.
  destruct (errorHandler_run (JsObj e) w1 eq_refl Hvalid)
    as (w2 & Herr & Hr & _ & Hf & Hj).
  rewrite Herr. cbn [snd]. rewrite Hr, Hf, Hj. cbn [statusCode sent].
  split; [|split; [|split; [reflexivity | split; [reflexivity|]]]].
  - unfold has. change (get (JsObj e) "status") with (status_of e).
    rewrite Hs. now destruct (checks_pass req).
  - intros Hc. rewrite (He Hc). reflexivity.
  - intros X'. now rewrite !Hserve.
Qed.

Lemma request_checks_method_witness :
  let req := mkRequest (Fixture.uploadQuery Fixture.lowerCommit []) []
               (JsObj [("method", JsStr "implementations")]) in
  statusCode (response (snd (serve (requestHandler Fixture.externals) req Fixture.world)))
  = JsNum 422.
Proof.
  intros req.
  exact (proj1 (request_checks_method Fixture.externals req Fixture.world eq_refl)).
Defined.

(** ** Configuration *)

(** X7. The redis endpoint prefers REDIS_STORE_ENDPOINT, then
    REDIS_ENDPOINT, then redis-store:6379. A variable that is set to the
    empty string counts as unset: when both variables are unset or empty
    the endpoint is the default redis-store:6379, and so the endpoint is
    never empty. *)
Theorem REDIS_ENDPOINT_precedence (env : gmap string string) :
  (forall s, env !! "REDIS_STORE_ENDPOINT" = Some s -> s <> "" ->
             REDIS_ENDPOINT env = JsStr s)
  /\ (forall s, env !! "REDIS_STORE_ENDPOINT" = None
                \/ env !! "REDIS_STORE_ENDPOINT" = Some "" ->
                env !! "REDIS_ENDPOINT" = Some s -> s <> "" ->
                REDIS_ENDPOINT env = JsStr s)
  /\ (env !! "REDIS_STORE_ENDPOINT" = None \/ env !! "REDIS_STORE_ENDPOINT" = Some "" ->
      env !! "REDIS_ENDPOINT" = None \/ env !! "REDIS_ENDPOINT" = Some "" ->
      REDIS_ENDPOINT env = JsStr "redis-store:6379")
  /\ (exists s, REDIS_ENDPOINT env = JsStr s /\ s <> "").
Proof.
  unfold REDIS_ENDPOINT, env_var, js_or.
  split; [|split; [|split]].
  - intros s -> Hs. simpl. apply String.eqb_neq in Hs.
    rewrite Hs. simpl. now rewrite Hs.
  - intros s [-> | ->] -> Hs; simpl; apply String.eqb_neq in Hs;
      rewrite Hs; simpl; rewrite ?Hs; reflexivity.
  - intros [-> | ->] [-> | ->]; reflexivity.
  - destruct (env !! "REDIS_STORE_ENDPOINT") as [s|];
      destruct (env !! "REDIS_ENDPOINT") as [t|]; simpl;
      try destruct (String.eqb s "") eqn:E; try destruct (String.eqb t "") eqn:E';
      simpl; rewrite ?E, ?E'; simpl;
      eexists; (split; [reflexivity|]);
      first [discriminate | now apply String.eqb_neq].
Qed.

(** ** File names *)

Lemma chars_app (a b : string) :
  list_ascii_of_string (a +:+ b) = list_ascii_of_string a ++ list_ascii_of_string b.
Proof. induction a as [|c a IH]; [reflexivity|]. cbn. now rewrite <- IH. Qed.

Lemma append_inj_r (a b s : string) : a +:+ s = b +:+ s -> a = b.
Proof.
  intros H. apply (f_equal list_ascii_of_string) in H. rewrite !chars_app in H.
  apply app_inv_tail in H.
  rewrite <- (string_of_list_ascii_of_string a), <- (string_of_list_ascii_of_string b).
  now rewrite H.
Qed.

Lemma string_of_nat_inj n m : string_of_nat n = string_of_nat m -> n = m.
Proof.
  unfold string_of_nat. intros H.
  apply (f_equal NilEmpty.uint_of_string) in H. rewrite !NilEmpty.usu in H.
  injection H as H. apply (f_equal Nat.of_uint) in H.
  now rewrite !DecimalNat.Unsigned.of_to in H.
Qed.

Lemma string_of_uint_chars u c :
  In c (list_ascii_of_string (NilEmpty.string_of_uint u)) -> lower_hex c = true.
Proof.
  induction u; simpl; intros H; try contradiction;
    (destruct H as [<-|H]; [reflexivity | auto]).
Qed.

Lemma not_in_chars (c : ascii) (s : string) :
  forallb (fun x => negb (Ascii.eqb x c)) (list_ascii_of_string s) = true ->
  ~ In c (list_ascii_of_string s).
Proof.
  intros H Hin. rewrite forallb_forall in H. specialize (H c Hin).
  now rewrite Ascii.eqb_refl in H.
Qed.

(** Two dumps share a file name only when they share the identifier. *)
Lemma dbFilename_inj root id id' r c r' c' :
  dbFilename root id r c = dbFilename root id' r' c' -> id = id'.
Proof.
  unfold dbFilename, path_join. intros H.
  apply (inj (String.app root)) in H. apply (inj (String.app "/")) in H.
  apply append_inj_r in H. now apply string_of_nat_inj.
Qed.

(** An id-based name is never an old-format name: it holds no [@]. *)
Lemma dbFilename_not_old root id r c r' c' :
  dbFilename root id r c <> dbFilenameOld root r' c'.
Proof.
  unfold dbFilename, dbFilenameOld, path_join. intros H.
  apply (inj (String.app root)) in H. apply (inj (String.app "/")) in H.
  apply (f_equal list_ascii_of_string) in H. rewrite !chars_app in H.
  assert (Hin : In "@"%char (list_ascii_of_string (string_of_nat id)
                             ++ list_ascii_of_string ".lsif.db")).
  { rewrite H. apply in_or_app. right. apply in_or_app. left. now left. }
  apply in_app_or in Hin as [Hin|Hin].
  - apply string_of_uint_chars in Hin. discriminate.
  - revert Hin. now apply not_in_chars.
Qed.

Lemma doneFile_not_new env d : doneFile env <> newFile env d.
Proof.
  unfold doneFile, newFile, dbFilename, path_join, string_of_nat. intros H.
  apply (inj (String.app (STORAGE_ROOT env))) in H. apply (inj (String.app "/")) in H.
  destruct (Nat.to_uint (dump_id d)); discriminate.
Qed.

Lemma doneFile_not_old env d : doneFile env <> oldFile env d.
Proof.
  unfold doneFile, oldFile, dbFilenameOld, path_join. intros H.
  apply (inj (String.app (STORAGE_ROOT env))) in H. apply (inj (String.app "/")) in H.
  apply (f_equal list_ascii_of_string) in H. rewrite !chars_app in H.
  assert (Hin : In "@"%char (list_ascii_of_string "id-based-filenames")).
  { rewrite H. apply in_or_app. right. apply in_or_app. left. now left. }
  revert Hin. now apply not_in_chars.
Qed.

Lemma tempFile_not_dump env u id r c :
  tempFileOf env u <> dbFilename (STORAGE_ROOT env) id r c.
Proof.
  unfold tempFileOf, dbFilename, path_join, string_of_nat. intros H.
  apply (inj (String.app (STORAGE_ROOT env))) in H. apply (inj (String.app "/")) in H.
  destruct (Nat.to_uint id); discriminate.
Qed.

Lemma upload_not_dump env u id r c :
  path_join [STORAGE_ROOT env; "uploads"; u] <> dbFilename (STORAGE_ROOT env) id r c.
Proof.
  unfold dbFilename, path_join, string_of_nat. intros H.
  apply (inj (String.app (STORAGE_ROOT env))) in H. apply (inj (String.app "/")) in H.
  destruct (Nat.to_uint id); discriminate.
Qed.

Lemma upload_not_temp env u u' :
  path_join [STORAGE_ROOT env; "uploads"; u] <> tempFileOf env u'.
Proof.
  unfold tempFileOf, path_join. intros H.
  apply (inj (String.app (STORAGE_ROOT env))) in H. apply (inj (String.app "/")) in H.
  discriminate.
Qed.

(** ** The convert job and the disk *)

(** The try block changes no file but the temp file and the file of the
    dump it registers. *)
Lemma convert_steps_frame env X repository commit root filename tempFile w r w1 :
  convert_steps env X repository commit root filename tempFile w = (r, w1) ->
  forall p,
    p <> tempFile ->
    p <> dump_file (STORAGE_ROOT env) (mkDump (next_dump_id w) repository commit root false) ->
    files w1 !! p = files w !! p.
Proof.
  intros H p Hp Hd. destruct r as [[]|e|];
    [|now apply (convert_steps_stops _ _ _ _ _ _ _ _ _ _ H)..].
  unfold convert_steps in H.
  apply bind_Return_inv in H as (pr & wa & Hconv & H).
  apply bind_Return_inv in H as (d & wb & Hadd & Hren).
  pose proof (convertLsif_frame _ _ _ _ _ _ Hconv) as [Hfa _].
  apply convertLsif_Return in Hconv as (_ & _ & Hna).
  apply addPackagesAndReferences_Return in Hadd as (-> & _ & Hfb & _).
  rewrite Hna in Hren.
  apply fs_rename_Return in Hren as (data & _ & Hf1 & _).
  rewrite Hf1. rewrite lookup_insert_ne by (intros Heq; apply Hd; now rewrite <- Heq).
  rewrite lookup_delete_ne by congruence.
  rewrite Hfb. now apply Hfa.
Qed.

(** X8. Whatever a convert job does and however it ends, it touches three
    paths only: its temp file, the upload it was given and the file of the
    dump it registers. Every other file, the databases of the other dumps
    among them, is on disk afterwards with the content it had. *)
Theorem convert_job_frame env X repository commit root filename (w : World) r w' p :
  createConvertJobProcessor env X repository commit root filename w = (r, w') ->
  p <> jobTempFile env w ->
  p <> filename ->
  p <> dump_file (STORAGE_ROOT env) (mkDump (next_dump_id w) repository commit root false) ->
  files w' !! p = files w !! p.
Proof.
  intros Hrun Ht Hf Hd. rewrite createConvertJobProcessor_start in Hrun.
  unfold bind at 1, try_catch in Hrun.
  destruct (convert_steps _ _ _ _ _ _ _ _) as [[[]|e|] w1] eqn:Hsteps;
    pose proof (convert_steps_frame _ _ _ _ _ _ _ _ _ _ Hsteps p Ht Hd) as Hsame;
    simpl in Hsame; rewrite <- Hsame.
  - unfold bind in Hrun.
    destruct (discoverAndUpdateCommit repository commit w1) as [[[]|e|] w2] eqn:Hdisc;
      [| |destruct (discoverAndUpdateCommit_settles _ _ _ _ Hdisc)];
      apply discoverAndUpdateCommit_run in Hdisc as (Hf2 & _).
    + rewrite <- Hf2. destruct r as [[]|e|].
      * apply fs_unlink_Return in Hrun as (-> & _). now apply lookup_delete_ne.
      * apply fs_unlink_Throw in Hrun as (-> & _). reflexivity.
      * destruct (fs_unlink_settles _ _ _ Hrun).
    + injection Hrun as _ <-. now rewrite Hf2.
  - unfold convert_cleanup, bind, throw in Hrun.
    destruct (fs_unlink (jobTempFile env w) w1) as [[[]|e'|] w2] eqn:Hunlink;
      [| |destruct (fs_unlink_settles _ _ _ Hunlink)];
      injection Hrun as _ <-.
    + apply fs_unlink_Return in Hunlink as (-> & _). now apply lookup_delete_ne.
    + apply fs_unlink_Throw in Hunlink as (-> & _). reflexivity.
  - injection Hrun as _ <-. reflexivity.
Qed.

Lemma convert_job_frame_witness :
  let run := createConvertJobProcessor Fixture.env Fixture.externals
               "test" Fixture.lowerCommit "" Fixture.upload Populated.world in
  fst run = Return tt
  /\ files (snd run) !! Populated.otherFile = Some [Byte.x01].
Proof.
  intros run. split; [vm_compute; reflexivity|].
  transitivity (files Populated.world !! Populated.otherFile);
    [|vm_compute; reflexivity].
  apply (convert_job_frame Fixture.env Fixture.externals "test" Fixture.lowerCommit ""
           Fixture.upload Populated.world (fst run) (snd run) Populated.otherFile).
  - vm_compute. reflexivity.
  - vm_compute. intros [=].
  - vm_compute. intros [=].
  - vm_compute. intros [=].
Defined.

(** X9. When the try block of a convert job fails and the unlink of the
    temp file goes through, the job has left the disk as it found it, the
    temp file apart: no partial database stays behind, and the upload is
    still there. *)
Theorem convert_failure_restores_disk env X repository commit root filename
    (w : World) e w1 w2 :
  convert_steps env X repository commit root filename (jobTempFile env w) (jobStart w)
  = (Throw e, w1) ->
  fs_unlink (jobTempFile env w) w1 = (Return tt, w2) ->
  createConvertJobProcessor env X repository commit root filename w = (Throw e, w2)
  /\ files w2 = delete (jobTempFile env w) (files w).
Proof.
  intros Hsteps Hunlink.
  rewrite (convert_failure_run _ _ _ _ _ _ _ _ _ Hsteps), Hunlink.
  split; [reflexivity|].
  apply fs_unlink_Return in Hunlink as (-> & _).
  apply map_eq. intros p.
  destruct (decide (p = jobTempFile env w)) as [->|Hne].
  - now rewrite !lookup_delete_eq.
  - rewrite !lookup_delete_ne by congruence.
    exact (convert_steps_Throw _ _ _ _ _ _ _ _ _ _ Hsteps p Hne).
Qed.

Lemma convert_failure_restores_disk_witness :
  let w0 := set_faults [None; None; Some Fixture.eio] Populated.world in
  let run := createConvertJobProcessor Fixture.env Fixture.externals
               "test" Fixture.lowerCommit "" Fixture.upload w0 in
  fst run = Throw Fixture.eio
  /\ files (snd run) = delete (jobTempFile Fixture.env w0) (files w0).
Proof.
  intros w0 run.
  destruct (convert_failure_restores_disk Fixture.env Fixture.externals
              "test" Fixture.lowerCommit "" Fixture.upload w0 Fixture.eio
              (snd (convert_steps Fixture.env Fixture.externals "test" Fixture.lowerCommit
                      "" Fixture.upload (jobTempFile Fixture.env w0) (jobStart w0)))
              (snd run))
    as [Hrun Hfiles].
  - vm_compute. reflexivity.
  - vm_compute. reflexivity.
  - split; [subst run; now rewrite Hrun | exact Hfiles].
Defined.

(** The state in which a convert job ends when its environment does not
    fail. *)
Lemma convert_job_fault_free env X repository commit root filename (w : World)
    input db pk rf :
  let tempFile := jobTempFile env w in
  let dump := mkDump (next_dump_id w) repository commit root false in
  let dumpFile := dump_file (STORAGE_ROOT env) dump in
  fault_free w ->
  files w !! filename = Some input ->
  importLsif X input = Return (db, pk, rf) ->
  filename <> tempFile ->
  filename <> dumpFile ->
  exists w',
    createConvertJobProcessor env X repository commit root filename w = (Return tt, w')
    /\ files w'
       = delete filename
           (<[dumpFile := db]>
              (delete tempFile (<[tempFile := db]> (<[tempFile := []]> (files w)))))
    /\ lsif_dumps w'
       = List.filter (fun d => negb (same_key repository commit root d)) (lsif_dumps w)
         ++ [dump]
    /\ (exists kept, lsif_packages w' = kept ++ map (fun p => (dump_id dump, p)) pk)
    /\ (exists kept, lsif_references w' = kept ++ map (fun r => (dump_id dump, r)) rf)
    /\ lsif_commits w' = lsif_commits w ++ [(repository, commit)]
    /\ fault_free w'.
Proof.
  intros tempFile dump dumpFile Hff Hin Himp Hft Hfd.
  assert (Htd : tempFile <> dumpFile) by apply tempFile_not_dump.
  assert (Hd : dumpFile
               = dbFilename (STORAGE_ROOT env) (next_dump_id w) repository commit)
    by reflexivity.
  clearbody dumpFile. subst dumpFile.
  unfold fault_free in *.
  rewrite createConvertJobProcessor_start. fold tempFile.
  unfold convert_steps, convert_cleanup, convertLsif, addPackagesAndReferences,
    discoverAndUpdateCommit, fs_rename, fs_unlink, fs_create, try_catch,
    bind, io_point, jobStart.
  simpl. rewrite Hff. simpl.
  rewrite lookup_insert_ne by congruence. rewrite Hin, Himp. simpl.
  rewrite Hff. simpl. rewrite Hff. simpl.
  rewrite lookup_insert_eq. simpl. repeat (rewrite Hff; simpl).
  rewrite lookup_insert_ne by congruence. rewrite lookup_delete_ne by congruence.
  rewrite !lookup_insert_ne by congruence. rewrite Hin.
  eexists. split; [reflexivity|]. simpl.
  split; [reflexivity|]. split; [reflexivity|].
  split; [eexists; reflexivity|]. split; [eexists; reflexivity|].
  split; [reflexivity | exact Hff].
Qed.

(** X10. A convert job whose environment does not fail goes through: given
    an upload that is on disk and that the importer accepts, the job
    returns; the database of the importer is then on disk under the
    id-based name of the new dump, the row of the dump, its packages and
    its references are registered, the commit is recorded, and the upload
    and the temp file are gone. *)
Theorem convert_job_succeeds env X repository commit root filename (w : World)
    input db pk rf :
  let tempFile := jobTempFile env w in
  let dump := mkDump (next_dump_id w) repository commit root false in
  let dumpFile := dump_file (STORAGE_ROOT env) dump in
  fault_free w ->
  files w !! filename = Some input ->
  importLsif X input = Return (db, pk, rf) ->
  filename <> tempFile ->
  filename <> dumpFile ->
  exists w',
    createConvertJobProcessor env X repository commit root filename w = (Return tt, w')
    /\ files w' !! dumpFile = Some db
    /\ files w' !! filename = None
    /\ files w' !! tempFile = None
    /\ In dump (lsif_dumps w')
    /\ (forall p, In p pk -> In (dump_id dump, p) (lsif_packages w'))
    /\ (forall r, In r rf -> In (dump_id dump, r) (lsif_references w'))
    /\ lsif_commits w' = lsif_commits w ++ [(repository, commit)]
    /\ fault_free w'.
Proof.
  intros tempFile dump dumpFile Hff Hin Himp Hft Hfd.
  assert (Htd : tempFile <> dumpFile) by apply tempFile_not_dump.
  destruct (convert_job_fault_free env X repository commit root filename w input db pk rf
              Hff Hin Himp Hft Hfd)
    as (w' & Hrun & Hfiles & Hdumps & (kp & Hpk) & (kr & Hrf) & Hcommits & Hff').
  fold tempFile dump dumpFile in Hfiles, Hdumps, Hpk, Hrf.
  exists w'. split; [exact Hrun|]. rewrite Hfiles, Hdumps, Hpk, Hrf.
  split; [rewrite lookup_delete_ne by congruence; apply lookup_insert_eq|].
  split; [apply lookup_delete_eq|].
  split; [rewrite lookup_delete_ne by congruence;
          rewrite lookup_insert_ne by congruence; apply lookup_delete_eq|].
  split; [apply in_or_app; right; now left|].
  split; [intros p Hp; apply in_or_app; right; now apply in_map|].
  split; [intros r Hr; apply in_or_app; right; now apply in_map|].
  split; [exact Hcommits | exact Hff'].
Qed.

Lemma convert_job_succeeds_witness :
  let run := createConvertJobProcessor Fixture.env Fixture.externals
               "test" Fixture.lowerCommit "" Fixture.upload Populated.world in
  fst run = Return tt
  /\ files (snd run) !! "lsif-storage/6.lsif.db" = Some Fixture.payload
  /\ files (snd run) !! Fixture.upload = None.
Proof.
  intros run.
  destruct (convert_job_succeeds Fixture.env Fixture.externals
              "test" Fixture.lowerCommit "" Fixture.upload Populated.world
              Fixture.payload Fixture.payload [] [])
    as (w' & Hrun & Hd & Hu & _).
  - reflexivity.
  - vm_compute. reflexivity.
  - reflexivity.
  - vm_compute. intros [=].
  - vm_compute. intros [=].
  - subst run. rewrite Hrun. cbn [fst snd].
    split; [reflexivity|]. split; [exact Hd | exact Hu].
Defined.

(** X11. The update of the commit parentage and the removal of the upload
    come after the try block and are not covered by it. When the try block
    has gone through and the update of the commit fails, the job fails with
    that error although the dump is published: its row is registered, its
    file is in place under the id-based name, and nothing is taken back.
    The upload is not unlinked. *)
Theorem convert_commit_update_failure env X repository commit root filename
    (w : World) w1 e w2 :
  let tempFile := jobTempFile env w in
  let dump := mkDump (next_dump_id w) repository commit root false in
  let dumpFile := dump_file (STORAGE_ROOT env) dump in
  convert_steps env X repository commit root filename tempFile (jobStart w)
  = (Return tt, w1) ->
  discoverAndUpdateCommit repository commit w1 = (Throw e, w2) ->
  createConvertJobProcessor env X repository commit root filename w = (Throw e, w2)
  /\ In dump (lsif_dumps w2)
  /\ is_Some (files w2 !! dumpFile)
  /\ lsif_commits w2 = lsif_commits w1
  /\ (filename <> tempFile -> filename <> dumpFile ->
      files w2 !! filename = files w !! filename).
Proof.
  intros tempFile dump dumpFile Hsteps Hdisc.
  split.
  { rewrite createConvertJobProcessor_start. fold tempFile.
    unfold bind at 1, try_catch. rewrite Hsteps.
    unfold bind. now rewrite Hdisc. }
  pose proof (convert_steps_frame _ _ _ _ _ _ _ _ _ _ Hsteps) as Hframe.
  apply convert_steps_Return in Hsteps as (Hin & Hfile & _ & _).
  assert (Hc : lsif_commits w2 = lsif_commits w1).
  { revert Hdisc. unfold discoverAndUpdateCommit. intros H. io_cases H; [discriminate|].
    now injection H as _ <-. }
  apply discoverAndUpdateCommit_run in Hdisc as (Hf & Hd & _).
  rewrite Hf, Hd. split; [exact Hin|]. split; [exact Hfile|]. split; [exact Hc|].
  intros Hft Hfd. exact (Hframe filename Hft Hfd).
Qed.

Lemma convert_commit_update_failure_witness :
  let w0 := set_faults [None; None; None; Some Fixture.eio] Populated.world in
  let run := createConvertJobProcessor Fixture.env Fixture.externals
               "test" Fixture.lowerCommit "" Fixture.upload w0 in
  fst run = Throw Fixture.eio
  /\ In (mkDump 6 "test" Fixture.lowerCommit "" false) (lsif_dumps (snd run))
  /\ is_Some (files (snd run) !! "lsif-storage/6.lsif.db").
Proof.
  intros w0 run.
  destruct (convert_commit_update_failure Fixture.env Fixture.externals
              "test" Fixture.lowerCommit "" Fixture.upload w0
              (snd (convert_steps Fixture.env Fixture.externals "test" Fixture.lowerCommit
                      "" Fixture.upload (jobTempFile Fixture.env w0) (jobStart w0)))
              Fixture.eio (snd run))
    as (Hrun & Hin & Hfile & _).
  - vm_compute. reflexivity.
  - vm_compute. reflexivity.
  - split; [subst run; now rewrite Hrun|]. split; [exact Hin | exact Hfile].
Defined.

(** ** From the upload to the dump *)

(** A checked upload whose body is accepted, in an environment that does
    not fail. *)
Lemma uploadHandler_fault_free env X req w data :
  checks_pass req = true ->
  fault_free w ->
  valid_status_code (statusCode (response w)) = true ->
  upload_source X (js_str_eqb (get (query req) "skipValidation") "true") req
  = Return data ->
  exists w',
    uploadHandler env X req w = (Return tt, w')
    /\ files w' !! uploadFilename env w = Some data
    /\ jobs w' = jobs w ++ [mkJob "convert"
                              (convert_args (get (query req) "repository")
                                            (get (query req) "commit")
                                            (get (query req) "root")
                                            (uploadFilename env w))]
    /\ fault_free w'
    /\ next_dump_id w' = next_dump_id w
    /\ uuid_gen w' = uuid_gen w.
Proof.
  intros Hchk Hff Hvalid Hsrc. unfold fault_free in *.
  rewrite uploadHandler_checked by exact Hchk. rewrite Hsrc.
  run_monad. rewrite ?Hff. simpl. rewrite ?Hff. simpl. rewrite ?Hff. simpl.
  rewrite ?Hvalid.
  eexists. split; [reflexivity|]. simpl.
  repeat split; auto. apply lookup_insert_eq.
Qed.



(** ** The migration and the databases *)

(** The marker is made in two steps, each of which can fail: the open,
    which creates the file, and the close. *)
Lemma fs_touch_run path w r w' :
  fs_touch path w = (r, w') ->
  lsif_dumps w' = lsif_dumps w
  /\ ((r = Return tt /\ files w' = <[path := []]> (files w))
      \/ (exists e, r = Throw e /\ files w' = files w)
      \/ (exists e, r = Throw e /\ files w' = <[path := []]> (files w))).
Proof.
  unfold fs_touch, fs_open, fs_close, fs_create. intros H.
  io_cases H; [|injection H as <- <-; split; [reflexivity|]; right; left; eauto].
  cbv beta iota in H. io_cases H; injection H as <- <-; (split; [reflexivity|]).
  - left. split; reflexivity.
  - right. right. eauto.
Qed.

Lemma migrate_dump_marker env d w r w' :
  migrate_dump env d w = (r, w') ->
  files w !! doneFile env = None -> files w' !! doneFile env = None.
Proof.
  unfold migrate_dump, bind, fs_exists.
  destruct (bool_decide (is_Some (files w !! oldFile env d))); simpl.
  - intros H Hnone. destruct r as [[]|e|].
    + apply fs_rename_Return in H as (data & _ & -> & _).
      rewrite lookup_insert_ne by (intros Heq; symmetry in Heq; revert Heq;
                                   apply doneFile_not_new).
      apply lookup_delete_None. now right.
    + apply fs_rename_Throw in H as (-> & _). exact Hnone.
    + destruct (fs_rename_settles _ _ _ _ H).
  - unfold ret. now intros [= <- <-].
Qed.

Lemma for_each_migrate_marker env l :
  forall w r w',
    for_each l (migrate_dump env) w = (r, w') ->
    files w !! doneFile env = None -> files w' !! doneFile env = None.
Proof.
  induction l as [|x rest IH]; intros w r w'; simpl.
  - unfold ret. now intros [= <- <-].
  - unfold bind. destruct (migrate_dump env x w) as [[[]|e|] w1] eqn:E.
    + intros H Hnone. apply (IH _ _ _ H). exact (migrate_dump_marker _ _ _ _ _ E Hnone).
    + intros [= <- <-] Hnone. exact (migrate_dump_marker _ _ _ _ _ E Hnone).
    + intros [= <- <-] Hnone. exact (migrate_dump_marker _ _ _ _ _ E Hnone).
Qed.

Lemma migrate_dump_old_absent env d w r w' p :
  migrate_dump env d w = (r, w') ->
  (forall d', p <> newFile env d') ->
  files w !! p = None -> files w' !! p = None.
Proof.
  unfold migrate_dump, bind, fs_exists. intros H Hp Hnone. revert H.
  destruct (bool_decide (is_Some (files w !! oldFile env d))); simpl.
  - intros H. destruct r as [[]|e|].
    + apply fs_rename_Return in H as (data & _ & -> & _).
      rewrite lookup_insert_ne by (intros Heq; exact (Hp d (eq_sym Heq))).
      apply lookup_delete_None. now right.
    + apply fs_rename_Throw in H as (-> & _). exact Hnone.
    + destruct (fs_rename_settles _ _ _ _ H).
  - unfold ret. now intros [= <- <-].
Qed.

Lemma migrate_dump_Return env d w w' :
  migrate_dump env d w = (Return tt, w') -> files w' !! oldFile env d = None.
Proof.
  unfold migrate_dump, bind, fs_exists.
  destruct (bool_decide (is_Some (files w !! oldFile env d))) eqn:B; simpl.
  - intros H. apply fs_rename_Return in H as (data & _ & -> & _).
    rewrite lookup_insert_ne by apply dbFilename_not_old. apply lookup_delete_eq.
  - unfold ret. intros [= <-]. apply bool_decide_eq_false in B.
    destruct (files w !! oldFile env d) eqn:E; [|reflexivity].
    exfalso. apply B. eauto.
Qed.

Lemma for_each_migrate_Return env l :
  forall w w',
    for_each l (migrate_dump env) w = (Return tt, w') ->
    lsif_dumps w' = lsif_dumps w
    /\ forall d, In d l -> files w' !! oldFile env d = None.
Proof.
  induction l as [|x rest IH]; intros w w'; simpl.
  - unfold ret. intros [= <-]. split; [reflexivity | intros d []].
  - intros H. apply bind_Return_inv in H as ([] & w1 & Hx & Hrest).
    assert (Hkeep : forall r w2 p,
               for_each rest (migrate_dump env) w1 = (r, w2) ->
               (forall d', p <> newFile env d') ->
               files w1 !! p = None -> files w2 !! p = None).
    { clear. revert w1. induction rest as [|y rest IH]; intros w1 r w2 p; simpl.
      - unfold ret. now intros [= <- <-].
      - unfold bind. destruct (migrate_dump env y w1) as [[[]|e|] wa] eqn:E.
        + intros H Hp Hnone. apply (IH _ _ _ _ H Hp).
          exact (migrate_dump_old_absent _ _ _ _ _ _ E Hp Hnone).
        + intros [= <- <-] Hp Hnone.
          exact (migrate_dump_old_absent _ _ _ _ _ _ E Hp Hnone).
        + intros [= <- <-] Hp Hnone.
          exact (migrate_dump_old_absent _ _ _ _ _ _ E Hp Hnone). }
    assert (Hd1 : lsif_dumps w1 = lsif_dumps w).
    { revert Hx. unfold migrate_dump, bind, fs_exists.
      destruct (bool_decide _); simpl.
      - intros H. now apply fs_rename_Return in H as (data & _ & _ & -> & _).
      - unfold ret. now intros [= <-]. }
    destruct (IH _ _ Hrest) as [Hd Hall]. split; [congruence|].
    intros d [<-|Hin]; [|now apply Hall].
    apply (Hkeep _ _ _ Hrest).
    + intros d' Heq. symmetry in Heq. revert Heq. apply dbFilename_not_old.
    + exact (migrate_dump_Return _ _ _ _ Hx).
Qed.



Lemma migrate_dump_fault_free env d w :
  fault_free w ->
  migrate_dump env d w
  = (Return tt,
     match files w !! oldFile env d with
     | Some data =>
         set_disk (<[newFile env d := data]> (delete (oldFile env d) (files w)))
                  [EvRename (oldFile env d) (newFile env d)] w
     | None => w
     end).
Proof.
  intros Hff. unfold migrate_dump, fs_exists. unfold bind at 1.
  destruct (files w !! oldFile env d) as [data|] eqn:Hd.
  - rewrite bool_decide_true by eauto. simpl. now apply fs_rename_fault_free.
  - rewrite bool_decide_false by (intros [? ?]; discriminate). reflexivity.
Qed.

Lemma newFile_inj env d d' : newFile env d = newFile env d' -> dump_id d = dump_id d'.
Proof. unfold newFile. apply dbFilename_inj. Qed.

Lemma NoDup_newFile env l :
  List.NoDup (map dump_id l) -> List.NoDup (map (newFile env) l).
Proof.
  induction l as [|x rest IH]; simpl; intros H; [constructor|].
  apply List.NoDup_cons_iff in H as [Hx Hrest]. constructor; [|now apply IH].
  intros Hin. apply in_map_iff in Hin as (d & Heq & Hd). apply Hx.
  apply newFile_inj in Heq. rewrite <- Heq. now apply in_map.
Qed.

(** The loop over the dump rows, when no two rows share a name: every
    row ends with the database it had under the old name, if it had one,
    under its new name. *)
Lemma migrate_contents env (l : list LsifDump) :
  List.NoDup (map (oldFile env) l) ->
  List.NoDup (map (newFile env) l) ->
  forall w,
    fault_free w ->
    exists w',
      for_each l (migrate_dump env) w = (Return tt, w')
      /\ fault_free w'
      /\ (forall d, In d l ->
            files w' !! oldFile env d = None
            /\ files w' !! newFile env d
               = match files w !! oldFile env d with
                 | Some data => Some data
                 | None => files w !! newFile env d
                 end)
      /\ (forall p, (forall d, In d l -> p <> oldFile env d /\ p <> newFile env d) ->
            files w' !! p = files w !! p).
Proof.
  induction l as [|x rest IH]; intros Hold Hnew w Hff.
  - exists w. split; [reflexivity|]. split; [exact Hff|].
    split; [intros d []|]. intros p _. reflexivity.
  - simpl in Hold, Hnew.
    apply List.NoDup_cons_iff in Hold as [Hox Hold].
    apply List.NoDup_cons_iff in Hnew as [Hnx Hnew].
    assert (Hno : forall d d', newFile env d <> oldFile env d')
      by (intros d d'; apply dbFilename_not_old).
    set (w1 := match files w !! oldFile env x with
               | Some data =>
                   set_disk (<[newFile env x := data]>
                               (delete (oldFile env x) (files w)))
                            [EvRename (oldFile env x) (newFile env x)] w
               | None => w
               end).
    assert (Hff1 : fault_free w1) by (subst w1; now destruct (files w !! oldFile env x)).
    (* what the step on [x] does to the disk *)
    assert (Hx_old : files w1 !! oldFile env x = None).
    { subst w1. destruct (files w !! oldFile env x) as [data|] eqn:E; [|exact E].
      simpl. rewrite lookup_insert_ne by apply Hno. apply lookup_delete_eq. }
    assert (Hx_new : files w1 !! newFile env x
                     = match files w !! oldFile env x with
                       | Some data => Some data
                       | None => files w !! newFile env x
                       end).
    { subst w1. destruct (files w !! oldFile env x) as [data|] eqn:E; [|reflexivity].
      simpl. apply lookup_insert_eq. }
    assert (Hx_frame : forall p, p <> oldFile env x -> p <> newFile env x ->
                                 files w1 !! p = files w !! p).
    { intros p Hpo Hpn. subst w1.
      destruct (files w !! oldFile env x) as [data|] eqn:E; [|reflexivity].
      simpl. rewrite lookup_insert_ne by congruence.
      now rewrite lookup_delete_ne by congruence. }
    destruct (IH Hold Hnew w1 Hff1) as (w' & Hrun & Hff' & Hrows & Hframe).
    exists w'. split.
    { simpl. rewrite (bind_Return (migrate_dump env x) _ w tt w1); [exact Hrun|].
      now apply migrate_dump_fault_free. }
    split; [exact Hff'|]. split.
    + intros d [<-|Hin].
      * assert (Hout : forall p, p = oldFile env x \/ p = newFile env x ->
                                 forall d, In d rest ->
                                           p <> oldFile env d /\ p <> newFile env d).
        { intros p [-> | ->] d Hd; split.
          - intros Heq. apply Hox. rewrite Heq. now apply in_map.
          - intros Heq. symmetry in Heq. revert Heq. apply Hno.
          - apply Hno.
          - intros Heq. apply Hnx. rewrite Heq. now apply in_map. }
        rewrite (Hframe _ (Hout _ (or_introl eq_refl))).
        rewrite (Hframe _ (Hout _ (or_intror eq_refl))).
        split; [exact Hx_old | exact Hx_new].
      * destruct (Hrows d Hin) as [Ho Hn]. split; [exact Ho|].
        rewrite Hn.
        assert (Hdo : oldFile env d <> oldFile env x).
        { intros Heq. apply Hox. rewrite <- Heq. now apply in_map. }
        assert (Hdn : newFile env d <> newFile env x).
        { intros Heq. apply Hnx. rewrite <- Heq. now apply in_map. }
        rewrite (Hx_frame (oldFile env d)) by (try exact Hdo; intros Heq; symmetry in Heq;
                                               revert Heq; apply Hno).
        rewrite (Hx_frame (newFile env d)) by (try exact Hdn; apply Hno).
        reflexivity.
    + intros p Hp. rewrite Hframe by (intros d Hd; apply Hp; now right).
      destruct (Hp x (or_introl eq_refl)) as [Hpo Hpn]. now apply Hx_frame.
Qed.

(** X14. The migration loses no database. In an environment that does not
    fail, with the marker missing, dump rows of distinct identifiers and no
    two rows of one old-format name, the migration goes through and every
    row whose database was on disk under <repo>@<commit>.lsif.db has that
    same content under <id>.lsif.db afterwards; no old-format name of a
    row is left, the marker is an empty file, and every file that is
    neither the marker nor a name of a row is as it was. *)
Theorem migration_keeps_databases env (w : World) :
  fault_free w ->
  files w !! doneFile env = None ->
  List.NoDup (map dump_id (lsif_dumps w)) ->
  List.NoDup (map (oldFile env) (lsif_dumps w)) ->
  exists w',
    ensureFilenamesAreIDs env w = (Return tt, w')
    /\ (forall d, In d (lsif_dumps w) ->
          files w' !! oldFile env d = None
          /\ files w' !! newFile env d
             = match files w !! oldFile env d with
               | Some data => Some data
               | None => files w !! newFile env d
               end)
    /\ files w' !! doneFile env = Some []
    /\ (forall p, p <> doneFile env ->
          (forall d, In d (lsif_dumps w) -> p <> oldFile env d /\ p <> newFile env d) ->
          files w' !! p = files w !! p).
Proof.
  intros Hff Hnone Hids Hold.
  destruct (migrate_contents env (lsif_dumps w) Hold (NoDup_newFile env _ Hids) w Hff)
    as (w1 & Hrun & Hff1 & Hrows & Hframe).
  unfold ensureFilenamesAreIDs, fs_exists. unfold bind at 1.
  rewrite bool_decide_false by (rewrite Hnone; intros [? ?]; discriminate).
  assert (Hfind : find_dumps w = (Return (lsif_dumps w), w)).
  { unfold find_dumps.
    now rewrite (bind_Return io_point _ w tt w) by now apply io_point_fault_free. }
  rewrite (bind_Return find_dumps _ w _ w Hfind).
  rewrite (bind_Return (for_each _ _) _ w tt w1 Hrun).
  rewrite (fs_touch_fault_free _ w1 Hff1).
  eexists. split; [reflexivity|]. simpl.
  split; [|split; [apply lookup_insert_eq|]].
  - intros d Hd. destruct (Hrows d Hd) as [Ho Hn].
    rewrite lookup_insert_ne by apply doneFile_not_old.
    rewrite lookup_insert_ne by apply doneFile_not_new.
    split; [exact Ho | exact Hn].
  - intros p Hp Hrest. rewrite lookup_insert_ne by congruence. now apply Hframe.
Qed.

Lemma migration_keeps_databases_witness :
  exists w',
    ensureFilenamesAreIDs Fixture.env Fixture.unmigrated = (Return tt, w')
    /\ files w' !! oldFile Fixture.env Fixture.oldDump = None
    /\ files w' !! newFile Fixture.env Fixture.oldDump = Some Fixture.payload.
Proof.
  destruct (migration_keeps_databases Fixture.env Fixture.unmigrated)
    as (w' & Hrun & Hrows & _).
  - reflexivity.
  - vm_compute. reflexivity.
  - constructor; [intros [] | constructor].
  - constructor; [intros [] | constructor].
  - exists w'. split; [exact Hrun|].
    destruct (Hrows Fixture.oldDump (or_introl eq_refl)) as [Ho Hn].
    split; [exact Ho|]. rewrite Hn. vm_compute. reflexivity.
Defined.

Lemma migrate_nothing env (l : list LsifDump) w :
  fault_free w ->
  (forall d, In d l -> files w !! oldFile env d = None) ->
  for_each l (migrate_dump env) w = (Return tt, w).
Proof.
  intros Hff. induction l as [|x rest IH]; intros Hnone; [reflexivity|].
  simpl. rewrite (bind_Return (migrate_dump env x) _ w tt w).
  - apply IH. intros d Hd. apply Hnone. now right.
  - rewrite (migrate_dump_fault_free env x w Hff).
    now rewrite (Hnone x (or_introl eq_refl)).
Qed.

(** X15. On a store without old-format files, a fresh installation above
    all, the migration renames nothing: in an environment that does not
    fail its whole effect is to create the empty marker. *)
Theorem ensureFilenamesAreIDs_fresh env (w : World) :
  fault_free w ->
  files w !! doneFile env = None ->
  (forall d, In d (lsif_dumps w) -> files w !! oldFile env d = None) ->
  ensureFilenamesAreIDs env w
  = (Return tt,
     set_disk (<[doneFile env := []]> (files w)) [EvWrite (doneFile env)] w).
Proof.
  intros Hff Hnone Hrows.
  unfold ensureFilenamesAreIDs, fs_exists. unfold bind at 1.
  rewrite bool_decide_false by (rewrite Hnone; intros [? ?]; discriminate).
  assert (Hfind : find_dumps w = (Return (lsif_dumps w), w)).
  { unfold find_dumps.
    now rewrite (bind_Return io_point _ w tt w) by now apply io_point_fault_free. }
  rewrite (bind_Return find_dumps _ w _ w Hfind).
  rewrite (bind_Return (for_each _ _) _ w tt w (migrate_nothing env _ w Hff Hrows)).
  now apply fs_touch_fault_free.
Qed.

Lemma ensureFilenamesAreIDs_fresh_witness :
  oplog (snd (ensureFilenamesAreIDs Fixture.env Populated.world))
  = [EvWrite "lsif-storage/id-based-filenames"].
Proof.
  rewrite (ensureFilenamesAreIDs_fresh Fixture.env Populated.world).
  - reflexivity.
  - reflexivity.
  - vm_compute. reflexivity.
  - intros d [<-|[]]. vm_compute. reflexivity.
Defined.

(** ** Uploads in a row *)

Lemma preserves_accept {T} (field : World -> T) env req filename :
  (forall f w, field (set_faults f w) = field w) ->
  (forall l w, field (set_logs l w) = field w) ->
  (forall j w, field (set_jobs j w) = field w) ->
  (forall r w, field (set_response r w) = field w) ->
  preserves field (accept env req filename).
Proof.
  intros Hfaults Hlogs Hjobs Hresponse. unfold accept, enqueue.
  apply preserves_bind; [intros w r w' [= _ <-]; apply Hlogs | intros _].
  apply preserves_bind.
  - apply preserves_bind.
    + intros w r w' H. unfold io_point in H.
      destruct (faults w) as [|[e|] rest]; injection H as _ <-; auto.
    + intros _ w r w' [= _ <-]. apply Hjobs.
  - intros _ w r w' H. unfold res_send in H.
    destruct (valid_status_code _); injection H as _ <-; auto.
Qed.

Lemma uploadHandler_uuid env X req w r w' :
  checks_pass req = true ->
  uploadHandler env X req w = (r, w') ->
  uuid_gen w' = uuid_gen w /\ uuid_used w' = S (uuid_used w).
Proof.
  intros Hchk. rewrite uploadHandler_phases by exact Hchk. intros H.
  split.
  - change (uuid_gen w) with (uuid_gen (jobStart w)). revert H.
    apply (preserves_bind uuid_gen); [now apply preserves_spool | intros _].
    now apply preserves_accept.
  - change (S (uuid_used w)) with (uuid_used (jobStart w)). revert H.
    apply (preserves_bind uuid_used); [now apply preserves_spool | intros _].
    now apply preserves_accept.
Qed.

Lemma errorHandler_uuid error w r w' :
  errorHandler error w = (r, w') ->
  uuid_gen w' = uuid_gen w /\ uuid_used w' = uuid_used w.
Proof.
  unfold errorHandler, bind, logger_log, ret, res_status, res_send.
  destruct (negb (truthy error) || negb (truthy (get error "status"))); simpl;
    destruct (negb (headersSent (response w))); simpl;
    try destruct (valid_status_code _);
    intros [= <- <-]; split; reflexivity.
Qed.

(** X16. Uploads do not collide. When the uuid generator does not repeat
    itself, two requests that pass the parameter checks are spooled under
    different names, whatever becomes of either: the second request leaves
    the spooled file of the first as it was. Each of the two files is on
    disk at the end when its open went through. *)
Theorem uploads_do_not_collide env X (req1 req2 : Request) (w : World) :
  checks_pass req1 = true ->
  checks_pass req2 = true ->
  (forall n m, uuid_gen w n = uuid_gen w m -> n = m) ->
  let w1 := snd (serve (uploadHandler env X) req1 w) in
  let w2 := snd (serve (uploadHandler env X) req2 w1) in
  uploadFilename env w1 <> uploadFilename env w
  /\ files w2 !! uploadFilename env w = files w1 !! uploadFilename env w
  /\ (io_ok 0 w = true -> is_Some (files w2 !! uploadFilename env w))
  /\ (io_ok 0 w1 = true -> is_Some (files w2 !! uploadFilename env w1)).
Proof.
  intros Hchk1 Hchk2 Hinj w1 w2.
  assert (Huuid : uuid_gen w1 = uuid_gen w /\ uuid_used w1 = S (uuid_used w)).
  { subst w1. unfold serve, try_catch.
    destruct (uploadHandler env X req1 (set_response freshResponse w))
      as [[[]|e|] wa] eqn:Hrun;
      apply (uploadHandler_uuid env X req1 _ _ _ Hchk1) in Hrun; try exact Hrun.
    destruct (errorHandler (JsObj e) wa) as [r wb] eqn:Herr.
    apply errorHandler_uuid in Herr as [Hg Hu]. simpl.
    rewrite Hg, Hu. exact Hrun. }
  destruct Huuid as [Hgen Hused].
  assert (Hne : uploadFilename env w1 <> uploadFilename env w).
  { unfold uploadFilename, path_join. rewrite Hgen, Hused. intros H.
    apply (inj (String.app (STORAGE_ROOT env))) in H.
    apply (inj (String.app "/")) in H. apply (inj (String.app "uploads")) in H.
    apply (inj (String.app "/")) in H. apply Hinj in H. lia. }
  assert (Hfirst : io_ok 0 w = true -> is_Some (files w1 !! uploadFilename env w)).
  { subst w1. rewrite serve_files.
    destruct (uploadHandler env X req1 (set_response freshResponse w)) as [r wa] eqn:Hrun.
    exact (proj1 (uploadHandler_files env X req1 _ _ _ Hchk1 Hrun)). }
  assert (Hsecond : (io_ok 0 w1 = true -> is_Some (files w2 !! uploadFilename env w1))
                    /\ forall p, p <> uploadFilename env w1 ->
                                 files w2 !! p = files w1 !! p).
  { subst w2. rewrite serve_files.
    destruct (uploadHandler env X req2 (set_response freshResponse w1)) as [r wa] eqn:Hrun.
    destruct (uploadHandler_files env X req2 _ _ _ Hchk2 Hrun) as (H1 & _ & H3).
    split; [exact H1 | exact H3]. }
  destruct Hsecond as [Hsecond Hframe].
  split; [exact Hne|]. split; [apply Hframe; congruence|].
  split; [|exact Hsecond].
  intros H0. rewrite Hframe by congruence. now apply Hfirst.
Qed.

Lemma uploads_do_not_collide_witness :
  let req := mkRequest (Fixture.uploadQuery Fixture.lowerCommit []) Fixture.payload
               JsUndefined in
  let w1 := snd (serve (uploadHandler Fixture.env Fixture.externals) req Fixture.world) in
  let w2 := snd (serve (uploadHandler Fixture.env Fixture.externals) req w1) in
  is_Some (files w2 !! "lsif-storage/uploads/u0")
  /\ is_Some (files w2 !! "lsif-storage/uploads/u1").
Proof.
  intros req w1 w2.
  destruct (uploads_do_not_collide Fixture.env Fixture.externals req req Fixture.world
              eq_refl eq_refl)
    as (_ & _ & Hfirst & Hsecond).
  - intros n m H. apply (inj (String.app "u")) in H. now apply string_of_nat_inj.
  - split; [apply Hfirst; reflexivity | apply Hsecond; vm_compute; reflexivity].
Defined.

(** ** The start of the server *)

Lemma ensureOnlyRepeatableJob_disk name args interval w r w' :
  ensureOnlyRepeatableJob name args interval w = (r, w') ->
  files w' = files w /\ lsif_dumps w' = lsif_dumps w.
Proof.
  unfold ensureOnlyRepeatableJob, removeRepeatable, addRepeatable. intros H.
  io_cases H; [|now injection H as _ <-].
  cbv beta iota in H. io_cases H; now injection H as _ <-.
Qed.


